(** * gcp_bigquery: a read-only BigQuery command-line tool

    A shallow embedding of [src/tools/gcp_bigquery.py] and the properties
    of its specification.

    - Python [str] values are [string]s whose characters are the code
      points below 256 (Latin-1); the regular-expression primitives are
      those of Python's [re] module on that range.
    - The BigQuery client library, [tabulate] and [argparse] are external:
      the client is a record of answers, [tabulate] and the help text are
      fields of a record of imports, and [main] starts from the parsed
      arguments.
    - Printing, service calls, exceptions and [sys.exit] are explicit: a
      computation yields the events it performed and how it ended. *)

From Stdlib Require Import List Bool Ascii String NArith PeanoNat Lia DecimalString.
Import ListNotations.

Set Implicit Arguments.

(** ** Characters, as [re] sees them *)

Module Chars.

Definition code (c : ascii) : N := N_of_ascii c.

Definition in_range (lo hi : N) (c : ascii) : bool :=
  (lo <=? code c)%N && (code c <=? hi)%N.

Definition is_upper (c : ascii) : bool := in_range 65 90 c.
Definition is_lower (c : ascii) : bool := in_range 97 122 c.
Definition is_digit (c : ascii) : bool := in_range 48 57 c.

(** The alphanumeric code points of 128..255
    ([str.isalnum]: feminine and masculine ordinal, superscript digits,
    micro sign, vulgar fractions and the accented letters). *)
Definition is_latin1_alnum (c : ascii) : bool :=
  existsb (N.eqb (code c)) [170; 178; 179; 181; 185; 186; 188; 189; 190]%N
  || in_range 192 214 c || in_range 216 246 c || in_range 248 255 c.

(** [\w] of a [str] pattern. *)
Definition is_word (c : ascii) : bool :=
  is_upper c || is_lower c || is_digit c || (code c =? 95)%N
  || is_latin1_alnum c.

(** Simple lower-casing of a code point below 256. *)
Definition lower (c : ascii) : ascii :=
  if is_upper c || ((in_range 192 222 c) && negb (code c =? 215)%N)
  then ascii_of_N (code c + 32) else c.

(** [.] without [re.DOTALL] matches everything but the line feed. *)
Definition is_newline (c : ascii) : bool := (code c =? 10)%N.

(** A literal character of a pattern compiled with [re.IGNORECASE]. *)
Definition ci_char (a c : ascii) : bool := Ascii.eqb (lower c) (lower a).

End Chars.
Import Chars.

(** ** The fragment of [re] used by [NON_READONLY_PATTERNS] *)

Module Re.

(** A pattern is a concatenation of atoms. *)
Inductive atom : Type :=
| WordB                       (* \b *)
| Lits (ws : list string)     (* (w1|w2|...), or a single literal word *)
| DotStar.                    (* .* *)

Definition pattern : Type := list atom.

Definition word_opt (c : option ascii) : bool :=
  match c with Some a => is_word a | None => false end.

(** [\b] between the character before the position and the text after. *)
Definition at_boundary (prev : option ascii) (s : list ascii) : bool :=
  xorb (word_opt prev) (word_opt (hd_error s)).

(** Consume literal [w] at the head of [s], ignoring case; gives the last
    character consumed and the rest of the text. *)
Fixpoint match_lit (w s : list ascii) (prev : option ascii)
  : option (option ascii * list ascii) :=
  match w with
  | [] => Some (prev, s)
  | a :: w' =>
      match s with
      | [] => None
      | c :: s' => if ci_char a c then match_lit w' s' (Some c) else None
      end
  end.

(** Greedy [.*] followed by the continuation [k]. *)
Fixpoint dot_star (k : option ascii -> list ascii -> bool)
  (prev : option ascii) (s : list ascii) : bool :=
  match s with
  | [] => k prev []
  | c :: s' =>
      if is_newline c then k prev s
      else dot_star k (Some c) s' || k prev s
  end.

(** Backtracking match of a pattern at the current position. *)
Fixpoint match_here (p : pattern) (prev : option ascii) (s : list ascii)
  : bool :=
  match p with
  | [] => true
  | WordB :: p' => at_boundary prev s && match_here p' prev s
  | Lits ws :: p' =>
      existsb
        (fun w =>
           match match_lit (list_ascii_of_string w) s prev with
           | Some (prev', rest) => match_here p' prev' rest
           | None => false
           end) ws
  | DotStar :: p' => dot_star (match_here p') prev s
  end.

(** [pattern.search]: try every start position, left to right. *)
Fixpoint search_from (p : pattern) (prev : option ascii) (s : list ascii)
  : bool :=
  match_here p prev s
  || match s with
     | [] => false
     | c :: s' => search_from p (Some c) s'
     end.

Definition search (p : pattern) (s : string) : bool :=
  search_from p None (list_ascii_of_string s).

End Re.
Import Re.

(** ** The safety filter *)

Definition MUTATING_KEYWORDS : list string :=
  ["INSERT"; "UPDATE"; "DELETE"; "CREATE"; "DROP"; "ALTER"; "MERGE";
   "TRUNCATE"]%string.

Definition span_pattern (first last : string) : pattern :=
  [WordB; Lits [first]; WordB; DotStar; WordB; Lits [last]; WordB].

Definition NON_READONLY_PATTERNS : list pattern :=
  [ [WordB; Lits MUTATING_KEYWORDS; WordB];
    span_pattern "GRANT" "TO";
    span_pattern "REVOKE" "FROM" ].

(** The loop of [is_readonly_query]: the first pattern found gives False. *)
Fixpoint readonly_loop (ps : list pattern) (query : string) : bool :=
  match ps with
  | [] => true
  | p :: ps' => if search p query then false else readonly_loop ps' query
  end.

Definition is_readonly_query (query : string) : bool :=
  readonly_loop NON_READONLY_PATTERNS query.

(** ** Values, rows and the answers of the external client *)

Inductive exn : Type :=
| GoogleCloudError (msg : string)
| OtherException (msg : string).   (* any other subclass of Exception *)

(** A scalar of a query result, or a string of a listing. *)
Inductive pyval : Type :=
| PStr (s : string)
| PInt (n : N)
| PBool (b : bool)
| PNone.

(** A [dict] with string keys: insertion order is the column order. *)
Definition dict : Type := list (string * pyval).

(** [d[k] = v]: a known key keeps its place, a new one goes last. *)
Fixpoint dict_set (k : string) (v : pyval) (d : dict) : dict :=
  match d with
  | [] => [(k, v)]
  | (k', v') :: d' =>
      if String.eqb k' k then (k', v) :: d' else (k', v') :: dict_set k v d'
  end.

Definition dict_keys (d : dict) : list string := map fst d.

Record SchemaField : Type := {
  name : string;
  field_type : string;
  is_nullable : bool;
  field_description : option string }.

Record Dataset : Type := { dataset_description : option string }.

Record Table : Type := {
  table_type : string;
  table_description : option string;
  schema : list SchemaField }.

(** What iterating a result cursor yields: rows, then the end or an
    exception of the client. *)
Inductive rows : Type :=
| RowsEnd
| RowsNext (row : list pyval) (rest : rows)
| RowsFail (e : exn).

Record RowIterator : Type := {
  iterator_schema : list SchemaField;
  iterator_rows : rows }.

Record QueryJob : Type := {
  total_bytes_processed : N;
  result : nat -> exn + RowIterator }.

(** A [bigquery.Client]: its project and what each request answers. *)
Record Client : Type := {
  project : string;
  client_list_datasets : exn + list string;
  client_get_dataset : string -> exn + Dataset;
  client_list_tables : string -> exn + list string;
  client_get_table : string -> string -> exn + Table;
  client_query : string -> bool -> exn + QueryJob }.

(** The imported libraries. *)
Record Imports : Type := {
  bigquery_Client : option string -> exn + Client;
  tabulate : list dict -> string;
  str_of_list : list dict -> string;
  help_text : string }.

(** ** Effects *)

Inductive call : Type :=
| NewClient (project_id : option string)
| ListDatasets
| GetDataset (dataset_id : string)
| ListTables (dataset_id : string)
| GetTable (dataset_id table_id : string)
| Query (query : string) (dry_run : bool)
| Result (max_results : nat)
| NextRow.

Inductive event : Type :=
| Stdout (line : string)
| Stderr (line : string)
| Service (c : call).

Inductive outcome (A : Type) : Type :=
| Ret (a : A)
| Raise (e : exn)
| Exit (status : nat).

Arguments Ret {A} a.
Arguments Raise {A} e.
Arguments Exit {A} status.

Definition M (A : Type) : Type := (list event * outcome A)%type.

Definition ret {A} (a : A) : M A := ([], Ret a).

Definition bind {A B} (m : M A) (f : A -> M B) : M B :=
  match m with
  | (t, Ret a) => let (t', o) := f a in ((t ++ t')%list, o)
  | (t, Raise e) => (t, Raise e)
  | (t, Exit n) => (t, Exit n)
  end.

Notation "x <- m ;; k" := (bind m (fun x => k))
  (at level 61, m at next level, right associativity).
Notation "m ;; k" := (bind m (fun _ => k))
  (at level 61, right associativity).

Definition print (line : string) : M unit := ([Stdout line], Ret tt).
Definition eprint (line : string) : M unit := ([Stderr line], Ret tt).
Definition sys_exit {A} (status : nat) : M A := ([], Exit status).
Definition raise {A} (e : exn) : M A := ([], Raise e).

(** A request to the client, answered by [r]. *)
Definition service {A} (c : call) (r : exn + A) : M A :=
  ([Service c], match r with inl e => Raise e | inr a => Ret a end).

(** [try: m except GoogleCloudError as e: h e] *)
Definition try_GoogleCloudError {A} (m : M A) (h : string -> M A) : M A :=
  match m with
  | (t, Raise (GoogleCloudError msg)) => let (t', o) := h msg in (t ++ t', o)
  | _ => m
  end.

(** [try: m except Exception: h] *)
Definition try_Exception {A} (m : M A) (h : M A) : M A :=
  match m with
  | (t, Raise _) => let (t', o) := h in (t ++ t', o)
  | _ => m
  end.

Definition trace {A} (m : M A) : list event := fst m.
Definition final {A} (m : M A) : outcome A := snd m.

Definition stdout_of (t : list event) : list string :=
  flat_map (fun e => match e with Stdout l => [l] | _ => [] end) t.

Definition stderr_of (t : list event) : list string :=
  flat_map (fun e => match e with Stderr l => [l] | _ => [] end) t.

Definition service_calls (t : list event) : list call :=
  flat_map (fun e => match e with Service c => [c] | _ => [] end) t.

(** Exit status of the interpreter: an uncaught exception gives 1. *)
Definition exit_status {A} (m : M A) : nat :=
  match final m with
  | Ret _ => 0
  | Exit n => n
  | Raise _ => 1
  end.

(** ** Small Python expressions *)

(** [x or ""] for an optional string. *)
Definition or_empty (x : option string) : string :=
  match x with Some s => s | None => EmptyString end.

(** Truth value of an optional string. *)
Definition truthy (x : option string) : bool :=
  match x with
  | Some s => negb (String.eqb s EmptyString)
  | None => false
  end.

(** [str] of a non-negative [int]. *)
Definition str_int (n : N) : string := NilZero.string_of_uint (N.to_uint n).

(** ** [class BigQueryTool] *)

Open Scope string_scope.

Record BigQueryTool : Type := {
  client : Client;
  project_id : string }.

(** The [if project_id: ... else: ...] of [__init__]. *)
Definition resolve_project_id (project_arg : option string) (c : Client)
  : string :=
  if truthy project_arg then or_empty project_arg else project c.

(** [BigQueryTool.__init__] *)
Definition BigQueryTool_init (lib : Imports) (project_arg : option string)
  : M BigQueryTool :=
  try_GoogleCloudError
    (c <- service (NewClient project_arg) (bigquery_Client lib project_arg) ;;
     let pid := resolve_project_id project_arg c in
     eprint ("Connected to BigQuery project: " ++ pid) ;;
     ret {| client := c; project_id := pid |})
    (fun e =>
       print ("Error connecting to BigQuery: " ++ e) ;;
       sys_exit 1).

(** The row of one dataset, given the description found for it. *)
Definition dataset_row (dataset_id description : string) : dict :=
  [("Dataset ID", PStr dataset_id); ("Description", PStr description)].

(** The body of the [for] loop of [list_datasets]. *)
Fixpoint list_datasets_loop (c : Client) (datasets : list string)
  (result : list dict) : M (list dict) :=
  match datasets with
  | [] => ret result
  | dataset_id :: datasets' =>
      description <-
        try_Exception
          (dataset <- service (GetDataset dataset_id)
                        (client_get_dataset c dataset_id) ;;
           ret (or_empty (dataset_description dataset)))
          (ret "") ;;
      list_datasets_loop c datasets'
        (result ++ [dataset_row dataset_id description])%list
  end.

Definition list_datasets (bq : BigQueryTool) : M (list dict) :=
  try_GoogleCloudError
    (datasets <- service ListDatasets (client_list_datasets (client bq)) ;;
     match datasets with
     | [] =>
         print ("No datasets found in project " ++ project_id bq) ;;
         ret []
     | _ => list_datasets_loop (client bq) datasets []
     end)
    (fun e =>
       print ("Error listing datasets: " ++ e) ;;
       sys_exit 1).

Definition table_row (table_id : string) (full_table : Table) : dict :=
  [("Table ID", PStr table_id);
   ("Type", PStr (if String.eqb (table_type full_table) "VIEW"
                  then "VIEW" else "TABLE"));
   ("Description", PStr (or_empty (table_description full_table)))].

(** The body of the [for] loop of [list_tables]. *)
Fixpoint list_tables_loop (c : Client) (dataset_id : string)
  (tables : list string) (result : list dict) : M (list dict) :=
  match tables with
  | [] => ret result
  | table_id :: tables' =>
      full_table <- service (GetTable dataset_id table_id)
                      (client_get_table c dataset_id table_id) ;;
      list_tables_loop c dataset_id tables'
        (result ++ [table_row table_id full_table])%list
  end.

Definition list_tables (bq : BigQueryTool) (dataset_id : string)
  : M (list dict) :=
  try_GoogleCloudError
    (tables <- service (ListTables dataset_id)
                 (client_list_tables (client bq) dataset_id) ;;
     match tables with
     | [] =>
         print ("No tables found in dataset " ++ dataset_id) ;;
         ret []
     | _ => list_tables_loop (client bq) dataset_id tables []
     end)
    (fun e =>
       print ("Error listing tables in dataset " ++ dataset_id ++ ": " ++ e) ;;
       sys_exit 1).

Definition field_row (field : SchemaField) : dict :=
  [("Column Name", PStr (name field));
   ("Data Type", PStr (field_type field));
   ("Nullable", PStr (if is_nullable field then "YES" else "NO"));
   ("Description", PStr (or_empty (field_description field)))].

Definition get_schema (bq : BigQueryTool) (dataset_id table_id : string)
  : M (list dict) :=
  try_GoogleCloudError
    (table <- service (GetTable dataset_id table_id)
                (client_get_table (client bq) dataset_id table_id) ;;
     ret (fold_left (fun result field => (result ++ [field_row field])%list)
            (schema table) []))
    (fun e =>
       print ("Error getting schema for " ++ dataset_id ++ "." ++ table_id
              ++ ": " ++ e) ;;
       sys_exit 1).

(** What [run_query] returns: [Union[List[Dict[str, Any]], str]]. *)
Inductive query_outcome : Type :=
| Rows (result_list : list dict)
| Message (text : string).

(** The inner loop: [row_dict[field_name] = row[i]] for the enumerated
    field names; [row[i]] raises IndexError past the end of the row. *)
Fixpoint fill_row (field_names : list string) (i : nat) (row : list pyval)
  (row_dict : dict) : M dict :=
  match field_names with
  | [] => ret row_dict
  | field_name :: field_names' =>
      match nth_error row i with
      | Some v => fill_row field_names' (S i) row (dict_set field_name v row_dict)
      | None => raise (OtherException "IndexError: tuple index out of range")
      end
  end.

(** The outer loop over the cursor: every step asks the cursor for its next
    row; the loop is left after the fifth row. *)
Fixpoint query_loop (field_names : list string) (results : rows)
  (result_list : list dict) (row_count : nat) : M (list dict) :=
  match results with
  | RowsEnd => service NextRow (inr result_list)
  | RowsFail e => service NextRow (inl e)
  | RowsNext row results' =>
      service NextRow (inr tt) ;;
      row_dict <- fill_row field_names 0 row [] ;;
      let result_list := (result_list ++ [row_dict])%list in
      let row_count := row_count + 1 in
      if (5 <=? row_count)%nat then ret result_list
      else query_loop field_names results' result_list row_count
  end.

Definition REJECTED : string :=
  "Error: Only read-only queries are allowed. Data modification operations detected.".

Definition run_query (bq : BigQueryTool) (query : string) (dry_run : bool)
  : M query_outcome :=
  if negb (is_readonly_query query) then ret (Message REJECTED)
  else
    try_GoogleCloudError
      (query_job <- service (Query query dry_run)
                      (client_query (client bq) query dry_run) ;;
       if dry_run then
         let bytes_processed := total_bytes_processed query_job in
         ret (Message ("Query validation successful. Estimated bytes processed: "
                       ++ str_int bytes_processed ++ " bytes."))
       else
         results <- service (Result 5) (result query_job 5) ;;
         let field_names := map name (iterator_schema results) in
         result_list <- query_loop field_names (iterator_rows results) [] 0 ;;
         ret (Rows result_list))
      (fun e => ret (Message ("Error executing query: " ++ e))).

(** ** [format_output] *)

(** [not data] *)
Definition falsy (data : query_outcome) : bool :=
  match data with
  | Rows [] => true
  | Rows _ => false
  | Message text => String.eqb text ""
  end.

Definition format_output (lib : Imports) (data : query_outcome)
  (format_type : string) : string :=
  if falsy data then "No data to display."
  else
    match data with
    | Message text => text
    | Rows l =>
        if String.eqb format_type "table" then tabulate lib l
        else str_of_list lib l
    end.

(** ** [main] *)

Inductive subcommand : Type :=
| CmdListDatasets
| CmdListTables (dataset_id : string)
| CmdGetSchema (dataset_id table_id : string)
| CmdRunQuery (query : string) (dry_run : bool).

(** The namespace [parser.parse_args()] returns. *)
Record Namespace : Type := {
  command : option subcommand;
  arg_project : option string }.

(** The warning printed when GOOGLE_APPLICATION_CREDENTIALS is not set. *)
Definition credentials_warning : M unit :=
  print "Warning: GOOGLE_APPLICATION_CREDENTIALS environment variable is not set." ;;
  print "Set it in your .env file to the path of your service account key file:" ;;
  print "GOOGLE_APPLICATION_CREDENTIALS=/path/to/your-key-file.json" ;;
  print "Continuing with default authentication...".

(** The check of GOOGLE_APPLICATION_CREDENTIALS in [main]. *)
Definition credentials_check (credentials : option string) : M unit :=
  match credentials with
  | None => credentials_warning
  | Some path => eprint ("Using service account key: " ++ path)
  end.

(** The [if]/[elif] chain that runs the requested command. *)
Definition dispatch (lib : Imports) (bq : BigQueryTool) (cmd : subcommand)
  : M unit :=
  match cmd with
  | CmdListDatasets =>
      result <- list_datasets bq ;;
      print (format_output lib (Rows result) "table")
  | CmdListTables dataset_id =>
      result <- list_tables bq dataset_id ;;
      print (format_output lib (Rows result) "table")
  | CmdGetSchema dataset_id table_id =>
      result <- get_schema bq dataset_id table_id ;;
      print (format_output lib (Rows result) "table")
  | CmdRunQuery query dry_run =>
      result <- run_query bq query dry_run ;;
      print (format_output lib result "table")
  end.

(** [credentials] is the value of GOOGLE_APPLICATION_CREDENTIALS in
    [os.environ], if it is there. *)
Definition main (lib : Imports) (credentials : option string)
  (args : Namespace) : M unit :=
  match command args with
  | None =>
      print (help_text lib) ;;
      sys_exit 1
  | Some cmd =>
      credentials_check credentials ;;
      bq <- BigQueryTool_init lib (arg_project args) ;;
      dispatch lib bq cmd
  end.

(** ** The words of the specification *)

Module Spec.

Local Open Scope list_scope.

(** The last character of [s], or [prev] when [s] is empty. *)
Fixpoint last_of (prev : option ascii) (s : list ascii) : option ascii :=
  match s with
  | [] => prev
  | c :: s' => last_of (Some c) s'
  end.

(** [w] is [k] up to the case of its letters. *)
Definition ci_equal (w k : list ascii) : Prop :=
  Forall2 (fun c a => lower c = lower a) w k.

(** No word character right before, resp. right after, an occurrence. *)
Definition edge_before (pre : list ascii) : Prop :=
  word_opt (last_of None pre) = false.

Definition edge_after (post : list ascii) : Prop :=
  word_opt (hd_error post) = false.

Definition same_line (mid : list ascii) : Prop :=
  Forall (fun c => is_newline c = false) mid.

(** A whole-word, case-insensitive occurrence of [k] in [q]. *)
Definition whole_word (k : string) (q : list ascii) : Prop :=
  exists pre w post,
    q = pre ++ w ++ post /\ ci_equal w (list_ascii_of_string k)
    /\ edge_before pre /\ edge_after post.

Definition mutating_keyword (q : list ascii) : Prop :=
  exists k, In k MUTATING_KEYWORDS /\ whole_word k q.

(** A whole word [first] followed, further on the same line, by a whole
    word [last]. *)
Definition span (first last : string) (q : list ascii) : Prop :=
  exists pre w1 mid w2 post,
    q = pre ++ w1 ++ mid ++ w2 ++ post
    /\ ci_equal w1 (list_ascii_of_string first)
    /\ ci_equal w2 (list_ascii_of_string last)
    /\ same_line mid
    /\ edge_before pre /\ edge_after (mid ++ w2 ++ post)
    /\ edge_before (pre ++ w1 ++ mid) /\ edge_after post.

Definition denylisted (query : string) : Prop :=
  let q := list_ascii_of_string query in
  mutating_keyword q \/ span "GRANT" "TO" q \/ span "REVOKE" "FROM" q.

(** What a pattern matches at a position, as a proposition. *)
Fixpoint sem (p : pattern) (prev : option ascii) (s : list ascii) : Prop :=
  match p with
  | [] => True
  | WordB :: p' => at_boundary prev s = true /\ sem p' prev s
  | Lits ws :: p' =>
      exists w m rest,
        In w ws /\ s = m ++ rest /\ ci_equal m (list_ascii_of_string w)
        /\ sem p' (last_of prev m) rest
  | DotStar :: p' =>
      exists mid rest,
        s = mid ++ rest /\ same_line mid /\ sem p' (last_of prev mid) rest
  end%list.

(** A literal made of word characters only, and not empty. *)
Definition wordy (k : string) : Prop :=
  list_ascii_of_string k <> []
  /\ Forall (fun a => is_word a = true) (list_ascii_of_string k).

(** [sub] occurs in [s]. *)
Definition contains (sub s : string) : Prop :=
  exists pre post, s = (pre ++ sub ++ post)%string.

(** The keys of a dict after [d[k] = ...]. *)
Definition add_key (k : string) (ks : list string) : list string :=
  if existsb (String.eqb k) ks then ks else (ks ++ [k])%list.

(** The distinct names of a schema, each at its first place. *)
Definition first_occurrences (names : list string) : list string :=
  fold_left (fun ks k => add_key k ks) names [].

(** The row of a result as a dict: column [i] under the [i]-th name. *)
Definition row_dict (field_names : list string) (row : list pyval) : dict :=
  fold_left (fun d kv => dict_set (fst kv) (snd kv) d)
    (combine field_names row) [].

(** The cursor that yields [rs] and then goes on as [tail]. *)
Fixpoint rows_app (rs : list (list pyval)) (tail : rows) : rows :=
  match rs with
  | [] => tail
  | r :: rs' => RowsNext r (rows_app rs' tail)
  end.

(** The description [list_datasets] ends up with for a dataset. *)
Definition description_found (c : Client) (dataset_id : string) : string :=
  match client_get_dataset c dataset_id with
  | inr dataset => or_empty (dataset_description dataset)
  | inl _ => EmptyString
  end.

(** A computation that writes nothing to the diagnostic stream. *)
Definition quiet {A} (m : M A) : Prop := stderr_of (trace m) = [].

(** The session [__init__] builds around the client [c]. *)
Definition session (project_arg : option string) (c : Client)
  : BigQueryTool :=
  {| client := c; project_id := resolve_project_id project_arg c |}.

End Spec.
Import Spec.

Open Scope list_scope.

(** ** Words for the library and for the exit status *)

Module Run.

(** The client library binds a client to the project it is given:
    [bigquery.Client(project=p).project == p], also for an empty [p]. *)
Definition binds_explicit_project (lib : Imports) : Prop :=
  forall p c, bigquery_Client lib (Some p) = inr c -> project c = p.

(** A request that is answered. *)
Definition fetched {A} (r : exn + A) : Prop := exists a, r = inr a.

(** Reading at most [n] rows of a cursor meets an exception other than a
    service error: the cursor raises one, or a row has fewer values than the
    schema has fields. *)
Fixpoint cursor_crashes (width : nat) (results : rows) (n : nat) {struct n}
  : bool :=
  match n with
  | 0 => false
  | S n' =>
      match results with
      | RowsEnd => false
      | RowsFail (GoogleCloudError _) => false
      | RowsFail (OtherException _) => true
      | RowsNext row rest =>
          (List.length row <? width)%nat || cursor_crashes width rest n'
      end
  end.

(** An exception other than a service error is met while an accepted query
    is sent, its result asked for, or its first five rows read. *)
Definition run_query_crashes (c : Client) (query : string) (dry_run : bool)
  : bool :=
  is_readonly_query query
  && match client_query c query dry_run with
     | inl (OtherException _) => true
     | inl (GoogleCloudError _) => false
     | inr job =>
         negb dry_run
         && match result job 5 with
            | inl (OtherException _) => true
            | inl (GoogleCloudError _) => false
            | inr results =>
                cursor_crashes (List.length (iterator_schema results))
                  (iterator_rows results) 5
            end
     end.

(** The command runs through on the client [c]. *)
Definition command_completes (c : Client) (cmd : subcommand) : Prop :=
  match cmd with
  | CmdListDatasets => fetched (client_list_datasets c)
  | CmdListTables dataset_id =>
      exists tables,
        client_list_tables c dataset_id = inr tables
        /\ Forall (fun t => fetched (client_get_table c dataset_id t)) tables
  | CmdGetSchema dataset_id table_id =>
      fetched (client_get_table c dataset_id table_id)
  | CmdRunQuery query dry_run => run_query_crashes c query dry_run = false
  end.

(** A subcommand is given, the session opens and the command runs
    through. *)
Definition runs_through (lib : Imports) (args : Namespace) : Prop :=
  exists cmd c,
    command args = Some cmd
    /\ bigquery_Client lib (arg_project args) = inr c
    /\ command_completes c cmd.

End Run.
Import Run.

(** ** A small warehouse to run the program on *)

Module Samples.

Local Open Scope string_scope.

Definition field (n t : string) : SchemaField :=
  {| name := n; field_type := t; is_nullable := true;
     field_description := None |}.

Definition six_rows : list (list pyval) :=
  [ [PInt 1; PStr "a"]; [PInt 2; PStr "b"]; [PInt 3; PStr "c"];
    [PInt 4; PStr "d"]; [PInt 5; PStr "e"]; [PInt 6; PStr "f"] ].

Definition cursor : RowIterator :=
  {| iterator_schema := [field "id" "INTEGER"; field "label" "STRING"];
     iterator_rows := rows_app six_rows RowsEnd |}.

Definition job : QueryJob :=
  {| total_bytes_processed := 2048; result := fun _ => inr cursor |}.

(** Two datasets, the second of which cannot be fetched; two tables, the
    first of which cannot be fetched. *)
Definition warehouse : Client :=
  {| project := "default-project";
     client_list_datasets := inr ["sales"; "hr"];
     client_get_dataset := fun dataset_id =>
       if String.eqb dataset_id "sales"
       then inr {| dataset_description := Some "Sales data" |}
       else inl (OtherException "403 Forbidden");
     client_list_tables := fun _ => inr ["orders"; "v_orders"];
     client_get_table := fun _ table_id =>
       if String.eqb table_id "v_orders"
       then inr {| table_type := "VIEW"; table_description := None;
                   schema := [field "id" "INTEGER"] |}
       else inl (GoogleCloudError "404 Not found");
     client_query := fun _ _ => inr job |}.

(** A project whose datasets cannot be listed. *)
Definition locked : Client :=
  {| project := "default-project";
     client_list_datasets := inl (GoogleCloudError "403 Forbidden");
     client_get_dataset := fun _ => inl (GoogleCloudError "403 Forbidden");
     client_list_tables := fun _ => inl (GoogleCloudError "403 Forbidden");
     client_get_table := fun _ _ => inl (GoogleCloudError "403 Forbidden");
     client_query := fun _ _ => inl (GoogleCloudError "403 Forbidden") |}.

(** The client [c], bound to the project it is asked for, as
    [bigquery.Client(project=...)] binds it. *)
Definition bound_to (project_arg : option string) (c : Client) : Client :=
  match project_arg with
  | Some p =>
      {| project := p;
         client_list_datasets := client_list_datasets c;
         client_get_dataset := client_get_dataset c;
         client_list_tables := client_list_tables c;
         client_get_table := client_get_table c;
         client_query := client_query c |}
  | None => c
  end.

Definition imports (c : Client) : Imports :=
  {| bigquery_Client := fun project_arg => inr (bound_to project_arg c);
     tabulate := fun _ => "| table |";
     str_of_list := fun _ => "[...]";
     help_text := "usage: gcp_bigquery.py [-h] ..." |}.

(** No connection can be made. *)
Definition offline : Imports :=
  {| bigquery_Client := fun _ => inl (GoogleCloudError "no route to host");
     tabulate := fun _ => "| table |";
     str_of_list := fun _ => "[...]";
     help_text := "usage: gcp_bigquery.py [-h] ..." |}.

Definition tool (c : Client) : BigQueryTool :=
  {| client := c; project_id := project c |}.

Definition list_datasets_args : Namespace :=
  {| command := Some CmdListDatasets; arg_project := None |}.

Definition run_query_args (query : string) (dry_run : bool) : Namespace :=
  {| command := Some (CmdRunQuery query dry_run); arg_project := None |}.

End Samples.

(** ** Further words, for the properties of the handlers *)

Module Shape.

Local Open Scope string_scope.

(** A row of [list_tables]: three columns, the type one of the two tags. *)
Definition table_row_shape (d : dict) : Prop :=
  exists table_id type description,
    d = [("Table ID", PStr table_id); ("Type", PStr type);
         ("Description", PStr description)]
    /\ (type = "TABLE" \/ type = "VIEW").

(** The row that shows the table [table_id] of descriptor [full]: its
    type reads VIEW for a view and TABLE for every other kind of table. *)
Definition listed_as (table_id : string) (full : Table) (d : dict) : Prop :=
  exists type,
    d = [("Table ID", PStr table_id); ("Type", PStr type);
         ("Description", PStr (or_empty (table_description full)))]
    /\ ((table_type full = "VIEW" /\ type = "VIEW")
        \/ (table_type full <> "VIEW" /\ type = "TABLE")).

(** A row of [get_schema]: four columns, the nullability YES or NO. *)
Definition field_row_shape (d : dict) : Prop :=
  exists column data_type nullable description,
    d = [("Column Name", PStr column); ("Data Type", PStr data_type);
         ("Nullable", PStr nullable); ("Description", PStr description)]
    /\ (nullable = "YES" \/ nullable = "NO").

(** Every event of a computation satisfies [P]. *)
Definition only {A} (P : event -> Prop) (m : M A) : Prop :=
  Forall P (trace m).

(** An event that, when it sends a query, sends one that satisfies [P]. *)
Definition query_event (P : string -> bool -> Prop) (e : event) : Prop :=
  match e with
  | Service (Query query dry_run) => P query dry_run
  | _ => True
  end.

(** An event other than sending a query. *)
Definition no_query : event -> Prop := query_event (fun _ _ => False).

(** A computation that never ends in [sys.exit]. *)
Definition no_exit {A} (m : M A) : Prop := forall n, final m <> Exit n.

(** An event other than output. *)
Definition silent_event (e : event) : Prop :=
  match e with
  | Service _ => True
  | _ => False
  end.

(** The rows asked of the cursor. *)
Definition is_next_row (e : event) : bool :=
  match e with
  | Service NextRow => true
  | _ => false
  end.

Definition rows_pulled (t : list event) : nat :=
  List.length (filter is_next_row t).

(** The line feed. *)
Definition line_feed : ascii := ascii_of_N 10.

(** A text of code points below 256 with every character lower-cased
    (on these, lower-casing is one to one; beyond them it is not, and this
    definition does not apply). *)
Definition lower_all (s : string) : string :=
  string_of_list_ascii (map lower (list_ascii_of_string s)).

End Shape.
Import Shape.

(** ** More of the sample warehouse *)

Module MoreSamples.

Local Open Scope string_scope.

Definition orders : Table :=
  {| table_type := "EXTERNAL"; table_description := Some "All orders";
     schema := [Samples.field "id" "INTEGER";
                {| name := "total"; field_type := "NUMERIC";
                   is_nullable := false;
                   field_description := Some "Order total" |}] |}.

Definition v_orders : Table :=
  {| table_type := "VIEW"; table_description := None;
     schema := [Samples.field "id" "INTEGER"] |}.

Definition catalog_table (table_id : string) : Table :=
  if String.eqb table_id "v_orders" then v_orders else orders.

(** Every descriptor can be fetched; no query can be run. *)
Definition catalog : Client :=
  {| project := "default-project";
     client_list_datasets := inr ["sales"];
     client_get_dataset := fun _ =>
       inr {| dataset_description := Some "Sales data" |};
     client_list_tables := fun _ => inr ["orders"; "v_orders"];
     client_get_table := fun _ table_id => inr (catalog_table table_id);
     client_query := fun _ _ => inl (GoogleCloudError "400 Bad query") |}.

(** A project without datasets and tables. *)
Definition empty_project : Client :=
  {| project := "default-project";
     client_list_datasets := inr [];
     client_get_dataset := fun _ => inl (GoogleCloudError "404 Not found");
     client_list_tables := fun _ => inr [];
     client_get_table := fun _ _ => inl (GoogleCloudError "404 Not found");
     client_query := fun _ _ => inl (GoogleCloudError "400 Bad query") |}.

Definition list_tables_args : Namespace :=
  {| command := Some (CmdListTables "shop"); arg_project := None |}.

(** A cursor that breaks down after its second row. *)
Definition broken_cursor : RowIterator :=
  {| iterator_schema := [Samples.field "id" "INTEGER";
                         Samples.field "label" "STRING"];
     iterator_rows :=
       rows_app (firstn 2 Samples.six_rows)
         (RowsFail (GoogleCloudError "503 Backend error")) |}.

Definition broken_job : QueryJob :=
  {| total_bytes_processed := 2048; result := fun _ => inr broken_cursor |}.

Definition flaky : Client :=
  {| project := "default-project";
     client_list_datasets := inr [];
     client_get_dataset := fun _ => inl (GoogleCloudError "404 Not found");
     client_list_tables := fun _ => inr [];
     client_get_table := fun _ _ => inl (GoogleCloudError "404 Not found");
     client_query := fun _ _ => inr broken_job |}.

End MoreSamples.

(** * Properties *)

(** ** Characters *)

Lemma ascii_cases (P : ascii -> Prop) :
  (forall b0 b1 b2 b3 b4 b5 b6 b7, P (Ascii b0 b1 b2 b3 b4 b5 b6 b7)) ->
  forall c, P c.
Proof. intros H [b0 b1 b2 b3 b4 b5 b6 b7]. apply H. Qed.

Lemma is_word_lower (c : ascii) : is_word (lower c) = is_word c.
Proof.
  revert c. apply ascii_cases.
  intros [] [] [] [] [] [] [] []; vm_compute; reflexivity.
Qed.

Lemma lower_is_word (c a : ascii) :
  lower c = lower a -> is_word c = is_word a.
Proof.
  intros H. rewrite <- (is_word_lower c), <- (is_word_lower a).
  now rewrite H.
Qed.

(** ** The matcher against its meaning *)

Lemma last_of_app (prev : option ascii) (a b : list ascii) :
  last_of prev (a ++ b) = last_of (last_of prev a) b.
Proof.
  revert prev. induction a as [|c a IH]; intros prev; simpl; auto.
Qed.

Lemma match_lit_spec (w : list ascii) :
  forall s prev prev' rest,
    match_lit w s prev = Some (prev', rest) <->
    exists m, s = (m ++ rest)%list /\ ci_equal m w /\ prev' = last_of prev m.
Proof.
  induction w as [|a w IH]; intros s prev prev' rest; simpl.
  - split.
    + intros H. injection H as <- <-. exists []. repeat split. constructor.
    + intros (m & -> & Hm & ->). inversion Hm; subst. reflexivity.
  - destruct s as [|c s].
    + split; [discriminate|].
      intros (m & Hs & Hm & _). inversion Hm; subst. discriminate.
    + unfold ci_char. destruct (Ascii.eqb (lower c) (lower a)) eqn:E.
      * apply Ascii.eqb_eq in E. rewrite IH. split.
        -- intros (m & -> & Hm & ->). exists (c :: m).
           repeat split. now constructor.
        -- intros (m & Hs & Hm & ->). inversion Hm; subst.
           injection Hs as -> ->. eexists. repeat split. assumption.
      * apply Ascii.eqb_neq in E. split; [discriminate|].
        intros (m & Hs & Hm & _). inversion Hm; subst.
        injection Hs as -> ->. contradiction.
Qed.

Lemma dot_star_spec (k : option ascii -> list ascii -> bool) :
  forall s prev,
    dot_star k prev s = true <->
    exists mid rest,
      s = (mid ++ rest)%list /\ same_line mid
      /\ k (last_of prev mid) rest = true.
Proof.
  induction s as [|c s IH]; intros prev; simpl.
  - split.
    + intros H. exists [], []. repeat split; [constructor | exact H].
    + intros (mid & rest & Hs & _ & H).
      symmetry in Hs. apply app_eq_nil in Hs as [-> ->]. exact H.
  - split.
    + destruct (is_newline c) eqn:Enl.
      * intros H. exists [], (c :: s). repeat split; [constructor | exact H].
      * intros H. apply orb_true_iff in H as [H | H].
        -- apply IH in H as (mid & rest & -> & Hmid & H).
           exists (c :: mid), rest. repeat split; [now constructor | exact H].
        -- exists [], (c :: s). repeat split; [constructor | exact H].
    + intros (mid & rest & Hs & Hmid & H).
      destruct mid as [|c' mid]; simpl in *.
      * subst rest. destruct (is_newline c); [exact H|].
        rewrite H. apply orb_true_r.
      * injection Hs as <- ->. inversion Hmid as [|? ? Hc Hmid']; subst.
        rewrite Hc. apply orb_true_iff. left. apply IH.
        exists mid, rest. repeat split; assumption.
Qed.

Lemma match_here_sem (p : pattern) :
  forall prev s, match_here p prev s = true <-> sem p prev s.
Proof.
  induction p as [|a p IH]; intros prev s; simpl.
  - tauto.
  - destruct a as [|ws|].
    + rewrite andb_true_iff, IH. tauto.
    + rewrite existsb_exists. split.
      * intros (w & Hin & H).
        destruct (match_lit (list_ascii_of_string w) s prev)
          as [[prev' rest]|] eqn:E; [|discriminate].
        apply match_lit_spec in E as (m & -> & Hm & ->).
        exists w, m, rest. repeat split; auto. now apply IH.
      * intros (w & m & rest & Hin & -> & Hm & H).
        exists w. split; [exact Hin|].
        assert (E : match_lit (list_ascii_of_string w) (m ++ rest) prev
                    = Some (last_of prev m, rest)).
        { apply match_lit_spec. exists m. repeat split. exact Hm. }
        rewrite E. now apply IH.
    + rewrite dot_star_spec. split.
      * intros (mid & rest & -> & Hmid & H).
        exists mid, rest. repeat split; auto. now apply IH.
      * intros (mid & rest & -> & Hmid & H).
        exists mid, rest. repeat split; auto. now apply IH.
Qed.

Lemma search_from_spec (p : pattern) :
  forall s prev,
    search_from p prev s = true <->
    exists pre rest,
      s = (pre ++ rest)%list /\ match_here p (last_of prev pre) rest = true.
Proof.
  induction s as [|c s IH]; intros prev; simpl.
  - rewrite orb_false_r. split.
    + intros H. exists [], []. auto.
    + intros (pre & rest & Hs & H).
      symmetry in Hs. apply app_eq_nil in Hs as [-> ->]. exact H.
  - rewrite orb_true_iff, IH. split.
    + intros [H | (pre & rest & -> & H)].
      * exists [], (c :: s). auto.
      * exists (c :: pre), rest. auto.
    + intros (pre & rest & Hs & H). destruct pre as [|c' pre]; simpl in *.
      * subst rest. now left.
      * injection Hs as <- ->. right. exists pre, rest. auto.
Qed.

(** ** Word boundaries around a literal made of word characters *)

Lemma at_boundary_before_word (prev : option ascii) (s : list ascii) :
  word_opt (hd_error s) = true ->
  (at_boundary prev s = true <-> word_opt prev = false).
Proof.
  unfold at_boundary. intros ->. destruct (word_opt prev); simpl; split;
    congruence.
Qed.

Lemma at_boundary_after_word (prev : option ascii) (s : list ascii) :
  word_opt prev = true ->
  (at_boundary prev s = true <-> word_opt (hd_error s) = false).
Proof.
  unfold at_boundary. intros ->. destruct (word_opt (hd_error s)); simpl;
    split; congruence.
Qed.

Lemma ci_equal_last_word (m k : list ascii) :
  ci_equal m k -> Forall (fun a => is_word a = true) k ->
  forall prev, word_opt prev = true \/ k <> [] ->
               word_opt (last_of prev m) = true.
Proof.
  induction 1 as [|c a m k Hca Hmk IH]; intros Hk prev Hprev; simpl.
  - destruct Hprev as [H | H]; [exact H | contradiction].
  - inversion Hk as [|? ? Ha Hk']; subst. apply IH; [exact Hk'|].
    left. simpl. rewrite (lower_is_word _ _ Hca). exact Ha.
Qed.

Lemma ci_equal_head_word (m k rest : list ascii) :
  ci_equal m k -> Forall (fun a => is_word a = true) k -> k <> [] ->
  word_opt (hd_error (m ++ rest)) = true.
Proof.
  intros Hmk Hk Hne. destruct Hmk as [|c a m k Hca Hmk]; [contradiction|].
  inversion Hk; subst. simpl. now rewrite (lower_is_word _ _ Hca).
Qed.

Lemma wordy_edges (k : string) (m rest : list ascii) (prev : option ascii) :
  wordy k -> ci_equal m (list_ascii_of_string k) ->
  (at_boundary prev (m ++ rest) = true <-> word_opt prev = false)
  /\ (at_boundary (last_of prev m) rest = true <-> edge_after rest).
Proof.
  intros [Hne Hk] Hm. split.
  - apply at_boundary_before_word. eapply ci_equal_head_word; eauto.
  - apply at_boundary_after_word. eapply ci_equal_last_word; eauto.
Qed.

(** ** The three patterns, in the words of the specification *)

Lemma search_keywords (ws : list string) (query : string) :
  Forall wordy ws ->
  search [WordB; Lits ws; WordB] query = true <->
  exists k, In k ws /\ whole_word k (list_ascii_of_string query).
Proof.
  intros Hws. unfold search. rewrite search_from_spec. split.
  - intros (pre & rest & Hq & H). apply match_here_sem in H.
    simpl in H. destruct H as (Hb & w & m & post & Hin & -> & Hm & Ha & _).
    pose proof (proj1 (Forall_forall _ _) Hws w Hin) as Hw.
    destruct (wordy_edges post (last_of None pre) Hw Hm) as [E1 E2].
    exists w. split; [exact Hin|]. exists pre, m, post.
    repeat split; auto; [now apply E1 | now apply E2].
  - intros (k & Hin & pre & w & post & Hq & Hw & Hpre & Hpost).
    pose proof (proj1 (Forall_forall _ _) Hws k Hin) as Hk.
    destruct (wordy_edges post (last_of None pre) Hk Hw) as [E1 E2].
    exists pre, (w ++ post). split; [exact Hq|]. apply match_here_sem.
    simpl. split; [now apply E1|]. exists k, w, post.
    repeat split; auto. now apply E2.
Qed.

Lemma search_span (first last : string) (query : string) :
  wordy first -> wordy last ->
  search (span_pattern first last) query = true <->
  span first last (list_ascii_of_string query).
Proof.
  intros Hf Hl. unfold search. rewrite search_from_spec. split.
  - intros (pre & rest & Hq & H). apply match_here_sem in H. simpl in H.
    destruct H as (Hb1 & w & w1 & r1 & [<- | []] & -> & Hw1 & Hb2
                   & mid & r2 & -> & Hmid & Hb3
                   & w' & w2 & post & [<- | []] & -> & Hw2 & Hb4 & _).
    destruct (wordy_edges (mid ++ w2 ++ post) (last_of None pre) Hf Hw1)
      as [E1 E2].
    destruct (wordy_edges post
                (last_of (last_of (last_of None pre) w1) mid) Hl Hw2)
      as [E3 E4].
    exists pre, w1, mid, w2, post. repeat split; auto.
    + now apply E1.
    + now apply E2.
    + unfold edge_before. rewrite !last_of_app. now apply E3.
    + now apply E4.
  - intros (pre & w1 & mid & w2 & post & Hq & Hw1 & Hw2 & Hmid
            & Hpre & Ha1 & Hb2 & Hpost).
    destruct (wordy_edges (mid ++ w2 ++ post) (last_of None pre) Hf Hw1)
      as [E1 E2].
    destruct (wordy_edges post
                (last_of (last_of (last_of None pre) w1) mid) Hl Hw2)
      as [E3 E4].
    unfold edge_before in Hb2. rewrite !last_of_app in Hb2.
    exists pre, (w1 ++ mid ++ w2 ++ post). split; [exact Hq|].
    apply match_here_sem. simpl. split; [now apply E1|].
    exists first, w1, (mid ++ w2 ++ post).
    repeat split; auto; [now apply E2|].
    exists mid, (w2 ++ post). repeat split; auto; [now apply E3|].
    exists last, w2, post. repeat split; auto. now apply E4.
Qed.

Lemma wordy_literal (k : string) :
  list_ascii_of_string k <> [] ->
  forallb is_word (list_ascii_of_string k) = true -> wordy k.
Proof.
  intros Hne H. split; [exact Hne|].
  apply Forall_forall. now apply forallb_forall.
Qed.

Lemma MUTATING_KEYWORDS_wordy : Forall wordy MUTATING_KEYWORDS.
Proof.
  unfold MUTATING_KEYWORDS.
  repeat (constructor; [apply wordy_literal; [discriminate | reflexivity]|]).
  constructor.
Qed.

(** ** The safety filter *)

(** C1: [is_readonly_query] answers False for every query with a whole-word,
    case-insensitive occurrence of one of the eight mutating keywords, or
    with a GRANT ... TO or REVOKE ... FROM span, and answers True for every
    other query. *)
Theorem is_readonly_query_denylist (query : string) :
  (is_readonly_query query = false <-> denylisted query)
  /\ (is_readonly_query query = true <-> ~ denylisted query).
Proof.
  assert (Hg : wordy "GRANT")
    by (apply wordy_literal; [discriminate | reflexivity]).
  assert (Ht : wordy "TO")
    by (apply wordy_literal; [discriminate | reflexivity]).
  assert (Hr : wordy "REVOKE")
    by (apply wordy_literal; [discriminate | reflexivity]).
  assert (Hf : wordy "FROM")
    by (apply wordy_literal; [discriminate | reflexivity]).
  pose proof (search_keywords query MUTATING_KEYWORDS_wordy) as H1.
  pose proof (search_span query Hg Ht) as H2.
  pose proof (search_span query Hr Hf) as H3.
  unfold denylisted, mutating_keyword, is_readonly_query,
    NON_READONLY_PATTERNS, readonly_loop.
  destruct (search [WordB; Lits MUTATING_KEYWORDS; WordB] query);
    destruct (search (span_pattern "GRANT" "TO") query);
    destruct (search (span_pattern "REVOKE" "FROM") query);
    intuition congruence.
Qed.

(** The examples of the specification, through the characterisation. *)
Lemma is_readonly_query_denylist_witness :
  is_readonly_query "select * from t; DROP TABLE t" = false
  /\ is_readonly_query "SELECT * FROM t" = true.
Proof.
  split.
  - apply (proj1 (is_readonly_query_denylist _)). left.
    exists "DROP"%string. split; [simpl; tauto|].
    exists (list_ascii_of_string "select * from t; "),
      (list_ascii_of_string "DROP"), (list_ascii_of_string " TABLE t").
    repeat split. repeat constructor.
  - apply (proj2 (is_readonly_query_denylist _)). intros H.
    apply (proj1 (is_readonly_query_denylist _)) in H. discriminate H.
Defined.

Example is_readonly_select :
  is_readonly_query "SELECT * FROM t" = true.
Proof. reflexivity. Qed.

Example is_readonly_drop :
  is_readonly_query "select * from t; DROP TABLE t" = false.
Proof. reflexivity. Qed.

Example is_readonly_grant :
  is_readonly_query "GRANT SELECT ON t TO user" = false.
Proof. reflexivity. Qed.

Example is_readonly_grant_two_lines :
  is_readonly_query (String "G" (String "R" (String "A" (String "N"
    (String "T" (String "010" (String "T" (String "O" "")))))))) = true.
Proof. reflexivity. Qed.

Example is_readonly_drop_underscore :
  is_readonly_query "select drop_table from t" = true.
Proof. reflexivity. Qed.

(** ** [run_query] *)

(** C2: a query the safety filter rejects gives exactly the fixed message,
    whatever [dry_run] is, and no request at all reaches the service. *)
Theorem run_query_rejected (bq : BigQueryTool) (query : string)
  (dry_run : bool) :
  is_readonly_query query = false ->
  final (run_query bq query dry_run)
  = Ret (Message
      "Error: Only read-only queries are allowed. Data modification operations detected.")
  /\ service_calls (trace (run_query bq query dry_run)) = []
  /\ trace (run_query bq query dry_run) = [].
Proof.
  intros H. unfold run_query. rewrite H. simpl. auto.
Qed.

Lemma contains_middle (a b c : string) : contains b (a ++ b ++ c)%string.
Proof. now exists a, c. Qed.

(** C4: an accepted query with [dry_run] set is sent once, as a dry run;
    its result is never asked for and no row is fetched; the message
    returned holds the estimate of bytes the service reported. *)
Theorem run_query_dry_run (bq : BigQueryTool) (query : string) :
  is_readonly_query query = true ->
  service_calls (trace (run_query bq query true)) = [Query query true]
  /\ forall job,
       client_query (client bq) query true = inr job ->
       final (run_query bq query true)
       = Ret (Message
           ("Query validation successful. Estimated bytes processed: "
            ++ str_int (total_bytes_processed job) ++ " bytes."))
       /\ exists text,
            final (run_query bq query true) = Ret (Message text)
            /\ contains (str_int (total_bytes_processed job)) text.
Proof.
  intros H. unfold run_query. rewrite H. simpl. split.
  - destruct (client_query (client bq) query true) as [[msg|msg]|job];
      reflexivity.
  - intros job ->. simpl. split; [reflexivity|].
    eexists. split; [reflexivity|].
    exact (contains_middle
             "Query validation successful. Estimated bytes processed: "
             (str_int (total_bytes_processed job)) " bytes.").
Qed.

(** *** Rows as dicts *)

Lemma nth_error_skipn (A : Type) (l : list A) :
  forall i, i < List.length l ->
            exists v, nth_error l i = Some v /\ skipn i l = v :: skipn (S i) l.
Proof.
  induction l as [|a l IH]; intros i Hi; simpl in Hi; [lia|].
  destruct i as [|i]; simpl.
  - now exists a.
  - apply IH. lia.
Qed.

Lemma fill_row_total (field_names : list string) (row : list pyval) :
  forall i row_dict,
    List.length field_names + i <= List.length row ->
    fill_row field_names i row row_dict
    = ret (fold_left (fun d kv => dict_set (fst kv) (snd kv) d)
             (combine field_names (skipn i row)) row_dict).
Proof.
  induction field_names as [|f fs IH]; intros i d Hlen; simpl in *.
  - reflexivity.
  - destruct (nth_error_skipn row (i := i)) as (v & -> & ->); [lia|].
    rewrite IH by lia. reflexivity.
Qed.

Lemma fill_row_row_dict (field_names : list string) (row : list pyval) :
  List.length field_names <= List.length row ->
  fill_row field_names 0 row [] = ret (row_dict field_names row).
Proof.
  intros H. rewrite fill_row_total by lia. reflexivity.
Qed.

Lemma dict_keys_dict_set (k : string) (v : pyval) (d : dict) :
  dict_keys (dict_set k v d) = add_key k (dict_keys d).
Proof.
  unfold add_key, dict_keys. induction d as [|[k' v'] d IH]; simpl.
  - reflexivity.
  - rewrite (String.eqb_sym k k'). destruct (String.eqb k' k); simpl.
    + reflexivity.
    + rewrite IH. now destruct (existsb (String.eqb k) (map fst d)).
Qed.

Lemma dict_keys_fold (kvs : list (string * pyval)) :
  forall d,
    dict_keys (fold_left (fun d kv => dict_set (fst kv) (snd kv) d) kvs d)
    = fold_left (fun ks k => add_key k ks) (map fst kvs) (dict_keys d).
Proof.
  induction kvs as [|[k v] kvs IH]; intros d; simpl.
  - reflexivity.
  - now rewrite IH, dict_keys_dict_set.
Qed.

Lemma map_fst_combine (A B : Type) (l : list A) :
  forall l' : list B, List.length l <= List.length l' -> map fst (combine l l') = l.
Proof.
  induction l as [|a l IH]; intros [|b l'] H; simpl in *; try reflexivity;
    try lia.
  now rewrite IH by lia.
Qed.

Lemma row_dict_keys (field_names : list string) (row : list pyval) :
  List.length field_names <= List.length row ->
  dict_keys (row_dict field_names row) = first_occurrences field_names.
Proof.
  intros H. unfold row_dict, first_occurrences.
  now rewrite dict_keys_fold, map_fst_combine.
Qed.

Lemma dict_set_fresh (k : string) (v : pyval) (d : dict) :
  ~ In k (dict_keys d) -> dict_set k v d = d ++ [(k, v)].
Proof.
  unfold dict_keys. induction d as [|[k' v'] d IH]; simpl; intros H.
  - reflexivity.
  - destruct (String.eqb_spec k' k) as [->|_]; [tauto|].
    now rewrite IH by tauto.
Qed.

Lemma fold_dict_set_fresh (kvs : list (string * pyval)) :
  forall d,
    NoDup (dict_keys (d ++ kvs)) ->
    fold_left (fun d kv => dict_set (fst kv) (snd kv) d) kvs d = d ++ kvs.
Proof.
  induction kvs as [|[k v] kvs IH]; intros d H; simpl.
  - now rewrite app_nil_r.
  - unfold dict_keys in H. rewrite map_app in H. simpl in H.
    rewrite dict_set_fresh.
    + rewrite IH; rewrite <- app_assoc; [reflexivity|].
      unfold dict_keys. now rewrite map_app.
    + apply NoDup_remove_2 in H. intros Hin. apply H.
      apply in_or_app. now left.
Qed.

Lemma row_dict_combine (field_names : list string) (row : list pyval) :
  List.length field_names <= List.length row -> NoDup field_names ->
  row_dict field_names row = combine field_names row.
Proof.
  intros Hlen Hnd. unfold row_dict. rewrite fold_dict_set_fresh; [easy|].
  simpl. unfold dict_keys. now rewrite map_fst_combine.
Qed.

(** *** The loop over the cursor *)

Lemma query_loop_rows (field_names : list string) (tail : rows) :
  forall rs result_list row_count k,
    row_count + k = 5 -> 0 < k ->
    k <= List.length rs \/ tail = RowsEnd ->
    Forall (fun r => List.length field_names <= List.length r) (firstn k rs) ->
    query_loop field_names (rows_app rs tail) result_list row_count
    = (repeat (Service NextRow) (Nat.min k (S (List.length rs))),
       Ret (result_list ++ map (row_dict field_names) (firstn k rs))).
Proof.
  induction rs as [|r rs IH]; intros acc cnt k Hk Hpos Hend Hwf.
  - destruct Hend as [Hend | ->]; [simpl in Hend; lia|].
    destruct k as [|k]; [lia|]. simpl.
    rewrite app_nil_r. now destruct k.
  - destruct k as [|k]; [lia|]. simpl in Hwf.
    inversion Hwf as [|? ? Hr Hwf']; subst.
    cbn [rows_app query_loop]. rewrite (fill_row_row_dict _ _ Hr).
    unfold ret, service. cbn [bind app].
    destruct (5 <=? cnt + 1)%nat eqn:E.
    + apply Nat.leb_le in E. assert (k = 0) by lia. subst k. reflexivity.
    + apply Nat.leb_gt in E.
      rewrite (IH (acc ++ [row_dict field_names r]) (cnt + 1) k);
        try lia; try assumption.
      * cbn. rewrite <- app_assoc. reflexivity.
      * destruct Hend as [Hend | Hend]; [left; simpl in Hend; lia | now right].
Qed.

(** C3: an accepted query that is executed gives at most five rows, in the
    order of the cursor, however many the cursor holds, and asks the cursor
    for no more; the columns of each row are in schema order; the text sent
    to the service is the caller's. *)
Theorem run_query_rows (bq : BigQueryTool) (query : string)
  (job : QueryJob) (results : RowIterator) (rs : list (list pyval))
  (tail : rows) :
  let field_names := map name (iterator_schema results) in
  let result_list := map (row_dict field_names) (firstn 5 rs) in
  is_readonly_query query = true ->
  client_query (client bq) query false = inr job ->
  result job 5 = inr results ->
  iterator_rows results = rows_app rs tail ->
  5 <= List.length rs \/ tail = RowsEnd ->
  Forall (fun r => List.length field_names <= List.length r) (firstn 5 rs) ->
  final (run_query bq query false) = Ret (Rows result_list)
  /\ List.length result_list <= 5
  /\ Forall (fun d => dict_keys d = first_occurrences field_names) result_list
  /\ (NoDup field_names ->
      result_list = map (combine field_names) (firstn 5 rs))
  /\ service_calls (trace (run_query bq query false))
     = Query query false :: Result 5
         :: repeat NextRow (Nat.min 5 (S (List.length rs))).
Proof.
  intros names result_list Hro Hq Hres Hrows Hend Hwf.
  assert (Hloop := @query_loop_rows names tail rs [] 0 5
                     eq_refl ltac:(lia) Hend Hwf).
  unfold run_query. rewrite Hro. cbn [negb].
  rewrite Hq. cbn [service bind]. rewrite Hres. cbn [service bind].
  fold names. rewrite Hrows, Hloop. clear Hloop.
  generalize (Nat.min 5 (S (List.length rs))). intros n.
  repeat split.
  - subst result_list. rewrite length_map, length_firstn. lia.
  - subst result_list. apply Forall_forall. intros d Hd.
    apply in_map_iff in Hd as (r & <- & Hr).
    apply row_dict_keys.
    exact (proj1 (Forall_forall _ _) Hwf r Hr).
  - intros Hnd. subst result_list. apply map_ext_in. intros r Hr.
    apply row_dict_combine; [|exact Hnd].
    exact (proj1 (Forall_forall _ _) Hwf r Hr).
  - cbn. f_equal. f_equal. rewrite app_nil_r.
    induction n as [|n IHn]; simpl; [reflexivity|]. now rewrite IHn.
Qed.

(** ** [format_output] *)

(** C5, as the code has it: a string that is not empty is returned as it
    is; an empty sequence of rows, and the empty string with it, gives
    "No data to display.". *)
Theorem format_output_passthrough (lib : Imports) (s format_type : string) :
  (s <> ""%string -> format_output lib (Message s) format_type = s)
  /\ format_output lib (Rows []) format_type = "No data to display."%string
  /\ format_output lib (Message "") format_type
     = "No data to display."%string.
Proof.
  repeat split. intros Hs. unfold format_output, falsy.
  destruct (String.eqb_spec s ""); [contradiction | reflexivity].
Qed.

(** ** [BigQueryTool.__init__] *)

Lemma BigQueryTool_init_connected (lib : Imports) (project_arg : option string)
  (c : Client) :
  bigquery_Client lib project_arg = inr c ->
  BigQueryTool_init lib project_arg
  = ([Service (NewClient project_arg);
      Stderr ("Connected to BigQuery project: "
              ++ resolve_project_id project_arg c)%string],
     Ret (session project_arg c)).
Proof.
  intros H. unfold BigQueryTool_init. rewrite H. reflexivity.
Qed.

Lemma BigQueryTool_init_failed (lib : Imports) (project_arg : option string)
  (e : exn) :
  bigquery_Client lib project_arg = inl e ->
  BigQueryTool_init lib project_arg
  = match e with
    | GoogleCloudError msg =>
        ([Service (NewClient project_arg);
          Stdout ("Error connecting to BigQuery: " ++ msg)%string], Exit 1)
    | OtherException _ => ([Service (NewClient project_arg)], Raise e)
    end.
Proof.
  intros H. unfold BigQueryTool_init. rewrite H. now destruct e.
Qed.

(** C9, at the project argument [""]: with a client library that binds a
    client to the project it is given, the empty string goes to the library
    as it is, the [else] branch then takes the project of that client, and
    the session ends up with the empty string as its project identifier;
    "Connected to BigQuery project: " is what the diagnostic stream gets. *)
Theorem empty_project_argument_session (lib : Imports) (c : Client) :
  binds_explicit_project lib ->
  bigquery_Client lib (Some ""%string) = inr c ->
  exists bq,
    final (BigQueryTool_init lib (Some ""%string)) = Ret bq
    /\ client bq = c
    /\ project_id bq = ""%string
    /\ trace (BigQueryTool_init lib (Some ""%string))
       = [Service (NewClient (Some ""%string));
          Stderr "Connected to BigQuery project: "].
Proof.
  intros Hlib Hc. pose proof (Hlib _ _ Hc) as Hp.
  rewrite (BigQueryTool_init_connected _ _ Hc).
  unfold session, resolve_project_id. cbn [truthy String.eqb negb].
  rewrite Hp. eexists. repeat split.
Qed.

(** C10, at the project argument [""]: with a client library that binds a
    client to the project it is given, the session does not get the default
    project, the one of a client built without a project argument: it gets
    the empty string. *)
Theorem empty_project_argument_not_default (lib : Imports)
  (default c : Client) :
  binds_explicit_project lib ->
  bigquery_Client lib None = inr default ->
  project default <> ""%string ->
  bigquery_Client lib (Some ""%string) = inr c ->
  exists bq,
    final (BigQueryTool_init lib (Some ""%string)) = Ret bq
    /\ project_id bq = ""%string
    /\ project_id bq <> project default.
Proof.
  intros Hlib _ Hd Hc. pose proof (Hlib _ _ Hc) as Hp.
  rewrite (BigQueryTool_init_connected _ _ Hc).
  eexists. split; [reflexivity|].
  unfold session, resolve_project_id. cbn [truthy String.eqb negb project_id].
  rewrite Hp. split; [reflexivity | congruence].
Qed.

(** ** Events of a computation *)

Lemma bind_Ret (A B : Type) (m : M A) (f : A -> M B) (t : list event) (a : A) :
  m = (t, Ret a) -> bind m f = (t ++ trace (f a), final (f a)).
Proof. intros ->. unfold bind, trace, final. now destruct (f a). Qed.

Lemma stdout_of_app (t t' : list event) :
  stdout_of (t ++ t') = stdout_of t ++ stdout_of t'.
Proof. apply flat_map_app. Qed.

Lemma stderr_of_app (t t' : list event) :
  stderr_of (t ++ t') = stderr_of t ++ stderr_of t'.
Proof. apply flat_map_app. Qed.

Lemma stdout_of_services (A : Type) (f : A -> call) (l : list A) :
  stdout_of (map (fun x => Service (f x)) l) = [].
Proof. induction l; simpl; auto. Qed.

Lemma stderr_of_services (A : Type) (f : A -> call) (l : list A) :
  stderr_of (map (fun x => Service (f x)) l) = [].
Proof. induction l; simpl; auto. Qed.

(** ** Listings *)

Lemma list_datasets_loop_total (c : Client) :
  forall datasets result,
    list_datasets_loop c datasets result
    = (map (fun id => Service (GetDataset id)) datasets,
       Ret (result
            ++ map (fun id => dataset_row id (description_found c id))
                 datasets)).
Proof.
  induction datasets as [|id ids IH]; intros acc; simpl.
  - unfold ret. now rewrite app_nil_r.
  - unfold description_found.
    destruct (client_get_dataset c id) as [e|dataset]; cbn;
      rewrite IH; cbn; rewrite <- app_assoc; reflexivity.
Qed.

Lemma list_tables_loop_fails (c : Client) (dataset_id t : string)
  (post : list string) (e : exn) :
  client_get_table c dataset_id t = inl e ->
  forall pre result,
    Forall (fun t' => exists full_table,
                client_get_table c dataset_id t' = inr full_table) pre ->
    list_tables_loop c dataset_id (pre ++ t :: post) result
    = (map (fun t' => Service (GetTable dataset_id t')) (pre ++ [t]),
       Raise e).
Proof.
  intros He. induction pre as [|t' pre IH]; intros acc Hpre; simpl.
  - rewrite He. reflexivity.
  - inversion Hpre as [|? ? [full_table Ht'] Hpre']; subst.
    rewrite Ht'. cbn. rewrite IH by assumption. reflexivity.
Qed.

(** C6, as the code has it: in [list_datasets] a descriptor that cannot be
    fetched leaves its dataset with an empty description and every dataset
    is still returned; in [list_tables] a descriptor fetch that fails with a
    service error ends the listing: the error is printed and the process
    exits with status 1. *)
Theorem listing_descriptor_failure (bq : BigQueryTool) :
  (forall datasets,
      client_list_datasets (client bq) = inr datasets ->
      final (list_datasets bq)
      = Ret (map (fun id =>
                    dataset_row id (description_found (client bq) id))
               datasets))
  /\ (forall id e,
         client_get_dataset (client bq) id = inl e ->
         description_found (client bq) id = ""%string)
  /\ (forall dataset_id pre t post msg,
         client_list_tables (client bq) dataset_id = inr (pre ++ t :: post) ->
         Forall (fun t' => exists full_table,
                     client_get_table (client bq) dataset_id t'
                     = inr full_table) pre ->
         client_get_table (client bq) dataset_id t
         = inl (GoogleCloudError msg) ->
         final (list_tables bq dataset_id) = Exit 1
         /\ stdout_of (trace (list_tables bq dataset_id))
            = [("Error listing tables in dataset " ++ dataset_id ++ ": "
                ++ msg)%string]).
Proof.
  split; [|split].
  - intros datasets H. unfold list_datasets. rewrite H.
    destruct datasets as [|id ids]; [reflexivity|].
    cbn [service bind]. rewrite list_datasets_loop_total. reflexivity.
  - intros id e H. unfold description_found. now rewrite H.
  - intros dataset_id pre t post msg Hl Hpre Ht.
    unfold list_tables. rewrite Hl.
    pose proof (@list_tables_loop_fails _ _ _ post _ Ht pre [] Hpre) as Hloop.
    cbn [service bind].
    replace (match pre ++ t :: post with
             | [] => print ("No tables found in dataset " ++ dataset_id) ;;
                     ret []
             | _ :: _ => list_tables_loop (client bq) dataset_id
                           (pre ++ t :: post) []
             end)
      with (list_tables_loop (client bq) dataset_id (pre ++ t :: post) [])
      by (now destruct pre).
    rewrite Hloop. cbn. split; [reflexivity|].
    rewrite stdout_of_app, stdout_of_services. reflexivity.
Qed.

(** ** What the handlers write to the diagnostic stream: nothing *)

Lemma quiet_bind (A B : Type) (m : M A) (f : A -> M B) :
  quiet m -> (forall a, quiet (f a)) -> quiet (bind m f).
Proof.
  unfold quiet, trace. destruct m as [t [a|e|n]]; simpl; intros Hm Hf; auto.
  specialize (Hf a). destruct (f a) as [t' o]. simpl in *.
  now rewrite stderr_of_app, Hm, Hf.
Qed.

Lemma quiet_try_GoogleCloudError (A : Type) (m : M A) (h : string -> M A) :
  quiet m -> (forall msg, quiet (h msg)) ->
  quiet (try_GoogleCloudError m h).
Proof.
  unfold quiet, trace. destruct m as [t [a|[msg|msg]|n]]; simpl;
    intros Hm Hh; auto.
  specialize (Hh msg). destruct (h msg) as [t' o]. simpl in *.
  now rewrite stderr_of_app, Hm, Hh.
Qed.

Lemma quiet_try_Exception (A : Type) (m h : M A) :
  quiet m -> quiet h -> quiet (try_Exception m h).
Proof.
  unfold quiet, trace. destruct m as [t [a|e|n]]; simpl; intros Hm Hh; auto.
  destruct h as [t' o]. simpl in *. now rewrite stderr_of_app, Hm, Hh.
Qed.

Lemma quiet_service (A : Type) (c : call) (r : exn + A) : quiet (service c r).
Proof. reflexivity. Qed.

Lemma quiet_print (line : string) : quiet (print line).
Proof. reflexivity. Qed.

Create HintDb quiet.
#[local] Hint Resolve quiet_service quiet_print : quiet.

Ltac quiet_steps :=
  repeat first
    [ apply quiet_try_GoogleCloudError; intros
    | apply quiet_try_Exception
    | apply quiet_bind; intros
    | solve [eauto with quiet]
    | reflexivity ].

Lemma list_datasets_quiet (bq : BigQueryTool) : quiet (list_datasets bq).
Proof.
  unfold list_datasets. quiet_steps.
  destruct a; [quiet_steps|]. rewrite list_datasets_loop_total.
  apply stderr_of_services.
Qed.

Lemma list_tables_loop_quiet (c : Client) (dataset_id : string) :
  forall tables result, quiet (list_tables_loop c dataset_id tables result).
Proof.
  induction tables as [|t ts IH]; intros acc; cbn [list_tables_loop];
    quiet_steps.
Qed.

Lemma list_tables_quiet (bq : BigQueryTool) (dataset_id : string) :
  quiet (list_tables bq dataset_id).
Proof.
  unfold list_tables. quiet_steps.
  destruct a; [quiet_steps | apply list_tables_loop_quiet].
Qed.

Lemma get_schema_quiet (bq : BigQueryTool) (dataset_id table_id : string) :
  quiet (get_schema bq dataset_id table_id).
Proof. unfold get_schema. quiet_steps. Qed.

Lemma fill_row_quiet (row : list pyval) :
  forall field_names i row_dict, quiet (fill_row field_names i row row_dict).
Proof.
  induction field_names as [|f fs IH]; intros i d; simpl; [reflexivity|].
  destruct (nth_error row i); [apply IH | reflexivity].
Qed.

Lemma query_loop_quiet (field_names : list string) :
  forall results result_list row_count,
    quiet (query_loop field_names results result_list row_count).
Proof.
  induction results as [|row rest IH|e]; intros acc cnt; cbn [query_loop];
    try reflexivity.
  apply quiet_bind; [reflexivity | intros _].
  apply quiet_bind; [apply fill_row_quiet | intros d].
  destruct (5 <=? cnt + 1)%nat; [reflexivity | apply IH].
Qed.

Lemma run_query_quiet (bq : BigQueryTool) (query : string) (dry_run : bool) :
  quiet (run_query bq query dry_run).
Proof.
  unfold run_query. destruct (negb (is_readonly_query query));
    [reflexivity|].
  quiet_steps. destruct dry_run; [reflexivity|].
  quiet_steps. apply query_loop_quiet.
Qed.

Lemma dispatch_quiet (lib : Imports) (bq : BigQueryTool) (cmd : subcommand) :
  quiet (dispatch lib bq cmd).
Proof.
  destruct cmd; simpl; apply quiet_bind; intros;
    auto using list_datasets_quiet, list_tables_quiet, get_schema_quiet,
      run_query_quiet, quiet_print.
Qed.

(** ** [main] *)

Lemma credentials_check_returns (credentials : option string) :
  credentials_check credentials
  = (trace (credentials_check credentials), Ret tt).
Proof. now destruct credentials. Qed.

Lemma main_connected (lib : Imports) (credentials : option string)
  (args : Namespace) (cmd : subcommand) (c : Client) :
  command args = Some cmd ->
  bigquery_Client lib (arg_project args) = inr c ->
  main lib credentials args
  = (trace (credentials_check credentials)
     ++ [Service (NewClient (arg_project args));
         Stderr ("Connected to BigQuery project: "
                 ++ resolve_project_id (arg_project args) c)%string]
     ++ trace (dispatch lib (session (arg_project args) c) cmd),
     final (dispatch lib (session (arg_project args) c) cmd)).
Proof.
  intros Hcmd Hc. unfold main. rewrite Hcmd.
  rewrite (bind_Ret _ (credentials_check_returns credentials)).
  rewrite (bind_Ret _ (BigQueryTool_init_connected _ _ Hc)).
  reflexivity.
Qed.

Lemma main_not_connected (lib : Imports) (credentials : option string)
  (args : Namespace) (cmd : subcommand) (e : exn) :
  command args = Some cmd ->
  bigquery_Client lib (arg_project args) = inl e ->
  main lib credentials args
  = (trace (credentials_check credentials)
     ++ trace (BigQueryTool_init lib (arg_project args)),
     match e with
     | GoogleCloudError _ => Exit 1
     | OtherException _ => Raise e
     end).
Proof.
  intros Hcmd He. unfold main. rewrite Hcmd.
  rewrite (bind_Ret _ (credentials_check_returns credentials)).
  rewrite (BigQueryTool_init_failed _ _ He). now destruct e.
Qed.

(** *** How the handlers end *)

Lemma fill_row_short (row : list pyval) :
  forall field_names i row_dict,
    i <= List.length row ->
    List.length row < List.length field_names + i ->
    fill_row field_names i row row_dict
    = raise (OtherException "IndexError: tuple index out of range").
Proof.
  induction field_names as [|f fs IH]; intros i d Hi Hlen; simpl in *;
    [lia|].
  destruct (nth_error row i) as [v|] eqn:E; [|reflexivity].
  assert (Hlt : i < List.length row)
    by (apply nth_error_Some; congruence).
  apply IH; lia.
Qed.

Lemma query_loop_outcome (field_names : list string) :
  forall results result_list row_count k,
    row_count + S k = 5 ->
    match final (query_loop field_names results result_list row_count) with
    | Ret _ | Raise (GoogleCloudError _) =>
        cursor_crashes (List.length field_names) results (S k) = false
    | Raise (OtherException _) =>
        cursor_crashes (List.length field_names) results (S k) = true
    | Exit _ => False
    end.
Proof.
  induction results as [|row rest IH|e]; intros acc cnt k Hk.
  - reflexivity.
  - cbn [query_loop cursor_crashes].
    destruct (List.length row <? List.length field_names)%nat eqn:E.
    + apply Nat.ltb_lt in E.
      rewrite fill_row_short by lia. reflexivity.
    + apply Nat.ltb_ge in E. rewrite (fill_row_row_dict _ _ E).
      unfold ret, service. cbn [bind app orb].
      destruct (5 <=? cnt + 1)%nat eqn:E5.
      * apply Nat.leb_le in E5. assert (k = 0) by lia. subst k.
        reflexivity.
      * apply Nat.leb_gt in E5. destruct k as [|k]; [lia|].
        specialize (IH (acc ++ [row_dict field_names row]) (cnt + 1) k
                      ltac:(lia)).
        destruct (query_loop field_names rest
                    (acc ++ [row_dict field_names row]) (cnt + 1))
          as [t o].
        exact IH.
  - destruct e; reflexivity.
Qed.

Lemma run_query_outcome (bq : BigQueryTool) (query : string)
  (dry_run : bool) :
  match final (run_query bq query dry_run) with
  | Ret _ => run_query_crashes (client bq) query dry_run = false
  | Raise (OtherException _) =>
      run_query_crashes (client bq) query dry_run = true
  | _ => False
  end.
Proof.
  unfold run_query, run_query_crashes.
  destruct (is_readonly_query query); [|reflexivity]. cbn [negb andb].
  destruct (client_query (client bq) query dry_run) as [[msg|msg]|job];
    try reflexivity.
  cbn [service bind]. destruct dry_run; [reflexivity|]. cbn [negb andb].
  destruct (result job 5) as [[msg|msg]|results]; try reflexivity.
  cbn [service bind].
  pose proof (@query_loop_outcome (map name (iterator_schema results))
                (iterator_rows results) [] 0 4 eq_refl) as H.
  rewrite length_map in H.
  destruct (query_loop (map name (iterator_schema results))
              (iterator_rows results) [] 0) as [t [l|[msg|msg]|n]];
    cbn in *; auto.
Qed.

Lemma list_tables_loop_outcome (c : Client) (dataset_id : string) :
  forall tables result,
    match final (list_tables_loop c dataset_id tables result) with
    | Ret _ =>
        Forall (fun t => fetched (client_get_table c dataset_id t)) tables
    | Raise _ =>
        ~ Forall (fun t => fetched (client_get_table c dataset_id t)) tables
    | Exit _ => False
    end.
Proof.
  induction tables as [|t ts IH]; intros acc; cbn [list_tables_loop].
  - constructor.
  - destruct (client_get_table c dataset_id t) as [e|full_table] eqn:E.
    + cbn. intros H. inversion H as [|? ? [a Ha] _]; subst. congruence.
    + cbn [service bind]. specialize (IH (acc ++ [table_row t full_table])).
      destruct (list_tables_loop c dataset_id ts
                  (acc ++ [table_row t full_table])) as [tr [l|e|n]];
        cbn in *.
      * constructor; [exists full_table; exact E | exact IH].
      * intros H. inversion H; subst. contradiction.
      * exact IH.
Qed.

Lemma dispatch_status (lib : Imports) (bq : BigQueryTool) (cmd : subcommand) :
  (command_completes (client bq) cmd
   /\ exit_status (dispatch lib bq cmd) = 0)
  \/ (~ command_completes (client bq) cmd
      /\ exit_status (dispatch lib bq cmd) = 1).
Proof.
  destruct cmd as [|dataset_id|dataset_id table_id|query dry_run];
    cbn [command_completes dispatch].
  - unfold list_datasets.
    destruct (client_list_datasets (client bq)) as [[msg|msg]|datasets].
    + right. split; [intros [a H]; discriminate | reflexivity].
    + right. split; [intros [a H]; discriminate | reflexivity].
    + left. split; [now exists datasets|].
      destruct datasets as [|id ids]; [reflexivity|].
      cbn [service bind]. rewrite list_datasets_loop_total. reflexivity.
  - unfold list_tables.
    destruct (client_list_tables (client bq) dataset_id)
      as [[msg|msg]|tables].
    + right. split; [intros (ts & H & _); discriminate | reflexivity].
    + right. split; [intros (ts & H & _); discriminate | reflexivity].
    + destruct tables as [|t ts].
      * left. split; [exists []; split; [reflexivity | constructor]|].
        reflexivity.
      * cbn [service bind].
        pose proof (list_tables_loop_outcome (client bq) dataset_id
                      (t :: ts) []) as H.
        destruct (list_tables_loop (client bq) dataset_id (t :: ts) [])
          as [tr [l|[msg|msg]|n]]; cbn in H.
        -- left. split; [exists (t :: ts); now split | reflexivity].
        -- right. split; [|reflexivity].
           intros (ts' & Heq & HF). injection Heq as <-. contradiction.
        -- right. split; [|reflexivity].
           intros (ts' & Heq & HF). injection Heq as <-. contradiction.
        -- contradiction.
  - unfold get_schema.
    destruct (client_get_table (client bq) dataset_id table_id)
      as [[msg|msg]|table].
    + right. split; [intros [a H]; discriminate | reflexivity].
    + right. split; [intros [a H]; discriminate | reflexivity].
    + left. split; [now exists table | reflexivity].
  - pose proof (run_query_outcome bq query dry_run) as H.
    destruct (run_query bq query dry_run) as [t [r|[msg|msg]|n]];
      cbn in H; try contradiction.
    + left. split; [exact H | reflexivity].
    + right. split; [congruence | reflexivity].
Qed.

Lemma main_status (lib : Imports) (credentials : option string)
  (args : Namespace) :
  (runs_through lib args /\ exit_status (main lib credentials args) = 0)
  \/ (~ runs_through lib args
      /\ exit_status (main lib credentials args) = 1).
Proof.
  destruct (command args) as [cmd|] eqn:Hcmd.
  - destruct (bigquery_Client lib (arg_project args)) as [e|c] eqn:Hc.
    + right. split.
      * intros (cmd' & c' & _ & H & _). congruence.
      * rewrite (main_not_connected _ _ _ Hcmd Hc). now destruct e.
    + assert (Hexit : exit_status (main lib credentials args)
                      = exit_status
                          (dispatch lib (session (arg_project args) c) cmd))
        by (now rewrite (main_connected _ _ _ Hcmd Hc)).
      rewrite Hexit.
      destruct (dispatch_status lib (session (arg_project args) c) cmd)
        as [[H1 H2] | [H1 H2]]; cbn [session client] in H1.
      * left. split; [now exists cmd, c | exact H2].
      * right. split; [|exact H2].
        intros (cmd' & c' & Hcmd' & Hc' & H).
        assert (cmd' = cmd) by congruence. assert (c' = c) by congruence.
        subst. contradiction.
  - right. split.
    + intros (cmd & c & H & _). congruence.
    + unfold main. rewrite Hcmd. reflexivity.
Qed.



(** ** Runs on the sample warehouse *)

Import Samples.

Lemma run_query_rejected_witness :
  is_readonly_query "DROP TABLE t" = false
  /\ final (run_query (tool warehouse) "DROP TABLE t" true)
     = Ret (Message
         "Error: Only read-only queries are allowed. Data modification operations detected.")
  /\ service_calls (trace (run_query (tool warehouse) "DROP TABLE t" true))
     = [].
Proof.
  split; [reflexivity|].
  destruct (@run_query_rejected (tool warehouse) "DROP TABLE t" true eq_refl)
    as (H1 & H2 & _).
  exact (conj H1 H2).
Defined.

Lemma run_query_rows_witness :
  final (run_query (tool warehouse) "SELECT id, label FROM t" false)
  = Ret (Rows
      [ [("id", PInt 1); ("label", PStr "a")];
        [("id", PInt 2); ("label", PStr "b")];
        [("id", PInt 3); ("label", PStr "c")];
        [("id", PInt 4); ("label", PStr "d")];
        [("id", PInt 5); ("label", PStr "e")] ]%string)
  /\ service_calls
       (trace (run_query (tool warehouse) "SELECT id, label FROM t" false))
     = [Query "SELECT id, label FROM t" false; Result 5;
        NextRow; NextRow; NextRow; NextRow; NextRow].
Proof.
  assert (Hwf : Forall
            (fun r : list pyval =>
               List.length (map name (iterator_schema cursor))
               <= List.length r) (firstn 5 six_rows))
    by (repeat constructor).
  destruct (@run_query_rows (tool warehouse) "SELECT id, label FROM t"
              job cursor six_rows RowsEnd eq_refl eq_refl eq_refl eq_refl
              (or_introl (le_S _ _ (le_n 5))) Hwf)
    as (H1 & _ & _ & _ & H5).
  exact (conj H1 H5).
Defined.

Lemma run_query_dry_run_witness :
  service_calls
    (trace (run_query (tool warehouse) "SELECT id, label FROM t" true))
  = [Query "SELECT id, label FROM t" true]
  /\ final (run_query (tool warehouse) "SELECT id, label FROM t" true)
     = Ret (Message
         "Query validation successful. Estimated bytes processed: 2048 bytes.").
Proof.
  destruct (@run_query_dry_run (tool warehouse) "SELECT id, label FROM t"
              eq_refl) as [H1 H2].
  destruct (H2 job eq_refl) as [H3 _].
  exact (conj H1 H3).
Defined.

(** The empty string is a string, and [format_output] does not return it. *)
Lemma format_output_empty_string :
  format_output (imports warehouse) (Message "") "table"
  = "No data to display."%string
  /\ format_output (imports warehouse) (Message "") "table" <> ""%string.
Proof. split; [reflexivity | discriminate]. Qed.

Lemma format_output_passthrough_witness :
  "Error executing query: 400"%string <> ""%string
  /\ format_output (imports warehouse) (Message "Error executing query: 400")
       "table"
     = "Error executing query: 400"%string.
Proof.
  assert (H : "Error executing query: 400"%string <> ""%string)
    by discriminate.
  split; [exact H|].
  exact (proj1 (format_output_passthrough (imports warehouse)
                  "Error executing query: 400" "table") H).
Defined.

(** The first table of the sample cannot be fetched: [list_tables] returns
    no row at all, not even the one of the second table, and the process
    ends. *)
Lemma list_tables_descriptor_failure :
  client_list_tables warehouse "shop" = inr ["orders"; "v_orders"]%string
  /\ final (list_tables (tool warehouse) "shop") = Exit 1
  /\ (forall result, final (list_tables (tool warehouse) "shop")
                     <> Ret result)
  /\ stdout_of (trace (list_tables (tool warehouse) "shop"))
     = ["Error listing tables in dataset shop: 404 Not found"%string].
Proof. repeat split. discriminate. Qed.

Lemma listing_descriptor_failure_witness :
  final (list_datasets (tool warehouse))
  = Ret [ [("Dataset ID", PStr "sales"); ("Description", PStr "Sales data")];
          [("Dataset ID", PStr "hr"); ("Description", PStr "")] ]%string
  /\ final (list_tables (tool warehouse) "shop") = Exit 1.
Proof.
  destruct (listing_descriptor_failure (tool warehouse)) as (H1 & _ & H3).
  split.
  - exact (H1 ["sales"; "hr"]%string eq_refl).
  - exact (proj1 (H3 "shop"%string [] "orders"%string ["v_orders"%string]
                    "404 Not found"%string eq_refl (Forall_nil _) eq_refl)).
Defined.




(** Without the credential variable the warning is the first thing on the
    primary stream. *)
Lemma credentials_warning_on_stdout :
  stdout_of (trace (main (imports warehouse) None
                      (run_query_args "DROP TABLE t" false)))
  = ["Warning: GOOGLE_APPLICATION_CREDENTIALS environment variable is not set.";
     "Set it in your .env file to the path of your service account key file:";
     "GOOGLE_APPLICATION_CREDENTIALS=/path/to/your-key-file.json";
     "Continuing with default authentication...";
     REJECTED]%string
  /\ stderr_of (trace (main (imports warehouse) None
                         (run_query_args "DROP TABLE t" false)))
     = ["Connected to BigQuery project: default-project"%string].
Proof. split; reflexivity. Qed.


Lemma imports_binds_explicit_project (c : Client) :
  binds_explicit_project (imports c).
Proof. intros p c' H. injection H as <-. reflexivity. Defined.

Lemma empty_project_argument_session_witness :
  exists bq,
    final (BigQueryTool_init (imports warehouse) (Some ""%string)) = Ret bq
    /\ project_id bq = ""%string.
Proof.
  destruct (@empty_project_argument_session (imports warehouse)
              (bound_to (Some ""%string) warehouse)
              (@imports_binds_explicit_project warehouse) eq_refl)
    as (bq & H1 & _ & H3 & _).
  exists bq. split; [exact H1 | exact H3].
Defined.

Lemma empty_project_argument_not_default_witness :
  project warehouse = "default-project"%string
  /\ exists bq,
       final (BigQueryTool_init (imports warehouse) (Some ""%string)) = Ret bq
       /\ project_id bq <> project warehouse.
Proof.
  split; [reflexivity|].
  assert (Hd : project warehouse <> ""%string) by discriminate.
  destruct (@empty_project_argument_not_default (imports warehouse)
              warehouse (bound_to (Some ""%string) warehouse)
              (@imports_binds_explicit_project warehouse) eq_refl Hd eq_refl)
    as (bq & H1 & _ & H3).
  exists bq. split; [exact H1 | exact H3].
Defined.

(** * Further properties of the handlers *)

Import MoreSamples.

Lemma service_calls_app (t t' : list event) :
  service_calls (t ++ t') = service_calls t ++ service_calls t'.
Proof. apply flat_map_app. Qed.

Lemma service_calls_services (A : Type) (f : A -> call) (l : list A) :
  service_calls (map (fun x => Service (f x)) l) = map f l.
Proof. induction l; simpl; [reflexivity | now f_equal]. Qed.

Lemma fold_left_snoc (A B : Type) (f : A -> B) (l : list A) :
  forall acc, fold_left (fun result x => result ++ [f x]) l acc
              = acc ++ map f l.
Proof.
  induction l as [|x l IH]; intros acc; simpl.
  - now rewrite app_nil_r.
  - now rewrite IH, <- app_assoc.
Qed.

(** ** [get_schema] *)

Lemma field_row_has_shape (field : SchemaField) :
  field_row_shape (field_row field).
Proof.
  unfold field_row_shape, field_row. do 4 eexists. split; [reflexivity|].
  destruct (is_nullable field); auto.
Qed.

(** [get_schema] asks for the table once and gives one row per field of its
    schema, in the order of the schema; every row has the same four columns
    and its nullability reads YES or NO. *)
Theorem get_schema_rows (bq : BigQueryTool) (dataset_id table_id : string)
  (table : Table) :
  client_get_table (client bq) dataset_id table_id = inr table ->
  get_schema bq dataset_id table_id
  = ([Service (GetTable dataset_id table_id)],
     Ret (map field_row (schema table)))
  /\ List.length (map field_row (schema table)) = List.length (schema table)
  /\ Forall field_row_shape (map field_row (schema table)).
Proof.
  intros H. unfold get_schema. rewrite H. cbn.
  rewrite fold_left_snoc. cbn. repeat split.
  - apply length_map.
  - apply Forall_forall. intros d Hd.
    apply in_map_iff in Hd as (field & <- & _). apply field_row_has_shape.
Qed.

Lemma get_schema_rows_witness :
  get_schema (tool catalog) "shop" "orders"
  = ([Service (GetTable "shop" "orders")],
     Ret [ [("Column Name", PStr "id"); ("Data Type", PStr "INTEGER");
            ("Nullable", PStr "YES"); ("Description", PStr "")];
           [("Column Name", PStr "total"); ("Data Type", PStr "NUMERIC");
            ("Nullable", PStr "NO"); ("Description", PStr "Order total")] ]
    )%string.
Proof.
  exact (proj1 (@get_schema_rows (tool catalog) "shop" "orders" orders
                  eq_refl)).
Defined.

(** ** [list_tables] *)

Lemma list_tables_loop_total (c : Client) (dataset_id : string)
  (full : string -> Table) :
  forall tables result,
    (forall t, In t tables -> client_get_table c dataset_id t = inr (full t)) ->
    list_tables_loop c dataset_id tables result
    = (map (fun t => Service (GetTable dataset_id t)) tables,
       Ret (result ++ map (fun t => table_row t (full t)) tables)).
Proof.
  induction tables as [|t ts IH]; intros acc Hall; simpl.
  - unfold ret. now rewrite app_nil_r.
  - rewrite (Hall t) by now left. cbn.
    rewrite IH by (intros t' Ht'; apply Hall; now right).
    cbn. now rewrite <- app_assoc.
Qed.

(** When every descriptor can be fetched, [list_tables] gives one row per
    listed table, in the order of the listing, after one listing request and
    one descriptor request per table. *)
Theorem list_tables_rows (bq : BigQueryTool) (dataset_id : string)
  (tables : list string) (full : string -> Table) :
  client_list_tables (client bq) dataset_id = inr tables ->
  (forall t, In t tables ->
             client_get_table (client bq) dataset_id t = inr (full t)) ->
  final (list_tables bq dataset_id)
  = Ret (map (fun t => table_row t (full t)) tables)
  /\ service_calls (trace (list_tables bq dataset_id))
     = ListTables dataset_id :: map (GetTable dataset_id) tables.
Proof.
  intros Hl Hall. unfold list_tables. rewrite Hl. cbn [service bind].
  destruct tables as [|t ts]; [split; reflexivity|].
  rewrite (list_tables_loop_total _ _ full) by assumption.
  unfold trace, final, try_GoogleCloudError. cbn [fst snd].
  split; [reflexivity|].
  rewrite service_calls_app.
  rewrite (service_calls_services (GetTable dataset_id) (t :: ts)).
  reflexivity.
Qed.

Lemma list_tables_rows_witness :
  final (list_tables (tool catalog) "shop")
  = Ret [ [("Table ID", PStr "orders"); ("Type", PStr "TABLE");
           ("Description", PStr "All orders")];
          [("Table ID", PStr "v_orders"); ("Type", PStr "VIEW");
           ("Description", PStr "")] ]%string
  /\ service_calls (trace (list_tables (tool catalog) "shop"))
     = [ListTables "shop"; GetTable "shop" "orders";
        GetTable "shop" "v_orders"]%string.
Proof.
  exact (@list_tables_rows (tool catalog) "shop" ["orders"; "v_orders"]%string
           catalog_table eq_refl (fun _ _ => eq_refl)).
Defined.

Lemma table_row_has_shape (table_id : string) (full_table : Table) :
  table_row_shape (table_row table_id full_table).
Proof.
  unfold table_row_shape, table_row. do 3 eexists. split; [reflexivity|].
  destruct (String.eqb (table_type full_table) "VIEW"); auto.
Qed.

Lemma list_tables_loop_shape (c : Client) (dataset_id : string) :
  forall tables result t rows,
    list_tables_loop c dataset_id tables result = (t, Ret rows) ->
    Forall table_row_shape result -> Forall table_row_shape rows.
Proof.
  induction tables as [|table_id ts IH]; intros acc t rows H Hacc; simpl in H.
  - injection H as _ <-. exact Hacc.
  - destruct (client_get_table c dataset_id table_id) as [e|full_table];
      [discriminate|].
    cbn in H.
    destruct (list_tables_loop c dataset_id ts
                (acc ++ [table_row table_id full_table]))
      as [t' o] eqn:E.
    injection H as _ ->. apply (IH _ _ _ E).
    apply Forall_app. split; [exact Hacc|].
    constructor; [apply table_row_has_shape | constructor].
Qed.

Lemma table_row_listed_as (table_id : string) (full_table : Table) :
  listed_as table_id full_table (table_row table_id full_table).
Proof.
  unfold listed_as, table_row. eexists. split; [reflexivity|].
  destruct (String.eqb_spec (table_type full_table) "VIEW"); auto.
Qed.

Lemma list_tables_loop_listed (c : Client) (dataset_id : string) :
  forall tables result t rows,
    list_tables_loop c dataset_id tables result = (t, Ret rows) ->
    exists new,
      rows = result ++ new
      /\ Forall2 (fun table_id d =>
                    exists full,
                      client_get_table c dataset_id table_id = inr full
                      /\ listed_as table_id full d) tables new.
Proof.
  induction tables as [|table_id ts IH]; intros acc t rows H; simpl in H.
  - injection H as _ <-. exists []. split; [now rewrite app_nil_r|].
    constructor.
  - destruct (client_get_table c dataset_id table_id) as [e|full_table] eqn:E;
      [discriminate|].
    cbn in H.
    destruct (list_tables_loop c dataset_id ts
                (acc ++ [table_row table_id full_table]))
      as [t' o] eqn:El.
    injection H as _ ->. destruct (IH _ _ _ El) as (new & -> & Hnew).
    exists (table_row table_id full_table :: new).
    split; [now rewrite <- app_assoc|].
    constructor; [|exact Hnew].
    exists full_table. split; [exact E | apply table_row_listed_as].
Qed.

(** Whatever the service answers, the rows [list_tables] returns are the
    rows of the tables listed, one each and in the order of the listing;
    each has the columns Table ID, Type and Description, and its type reads
    VIEW when the descriptor of the table says VIEW and TABLE for every
    other kind of table. *)
Theorem list_tables_row_shape (bq : BigQueryTool) (dataset_id : string)
  (rows : list dict) :
  final (list_tables bq dataset_id) = Ret rows ->
  Forall table_row_shape rows
  /\ exists tables,
       client_list_tables (client bq) dataset_id = inr tables
       /\ Forall2 (fun table_id d =>
                     exists full,
                       client_get_table (client bq) dataset_id table_id
                       = inr full
                       /\ listed_as table_id full d) tables rows.
Proof.
  unfold list_tables, final.
  destruct (client_list_tables (client bq) dataset_id) as [[msg|msg]|tables];
    try discriminate.
  cbn [service bind]. destruct tables as [|t ts].
  - cbn. intros H. injection H as <-. split; [constructor|].
    exists []. split; [reflexivity | constructor].
  - destruct (list_tables_loop (client bq) dataset_id (t :: ts) [])
      as [tr [l|[msg|msg]|n]] eqn:E; cbn; try discriminate.
    intros H. injection H as <-. split.
    + eapply list_tables_loop_shape; [exact E | constructor].
    + destruct (list_tables_loop_listed _ _ _ _ E) as (new & -> & Hnew).
      exists (t :: ts). split; [reflexivity | exact Hnew].
Qed.

Lemma list_tables_row_shape_witness :
  final (list_tables (tool catalog) "shop")
  = Ret [ [("Table ID", PStr "orders"); ("Type", PStr "TABLE");
           ("Description", PStr "All orders")];
          [("Table ID", PStr "v_orders"); ("Type", PStr "VIEW");
           ("Description", PStr "")] ]%string
  /\ Forall2 (fun table_id d =>
                exists full,
                  client_get_table catalog "shop" table_id = inr full
                  /\ listed_as table_id full d)
       ["orders"; "v_orders"]%string
       [ [("Table ID", PStr "orders"); ("Type", PStr "TABLE");
          ("Description", PStr "All orders")];
         [("Table ID", PStr "v_orders"); ("Type", PStr "VIEW");
          ("Description", PStr "")] ]%string.
Proof.
  split; [reflexivity|].
  destruct (@list_tables_row_shape (tool catalog) "shop" _ eq_refl)
    as (_ & tables & Ht & H).
  injection Ht as <-. exact H.
Defined.

(** ** Empty listings *)

(** A project without datasets, or a dataset without tables, is no error:
    the handler prints its informational line and returns no row, [main]
    prints "No data to display." after it and the process exits with
    status 0. *)
Theorem listing_empty (lib : Imports) (credentials : option string)
  (args : Namespace) (c : Client) :
  let run := main lib credentials args in
  bigquery_Client lib (arg_project args) = inr c ->
  (command args = Some CmdListDatasets ->
   client_list_datasets c = inr [] ->
   stdout_of (trace run)
   = stdout_of (trace (credentials_check credentials))
     ++ [("No datasets found in project "
          ++ resolve_project_id (arg_project args) c)%string;
         "No data to display."%string]
   /\ exit_status run = 0)
  /\ (forall dataset_id,
         command args = Some (CmdListTables dataset_id) ->
         client_list_tables c dataset_id = inr [] ->
         stdout_of (trace run)
         = stdout_of (trace (credentials_check credentials))
           ++ [("No tables found in dataset " ++ dataset_id)%string;
               "No data to display."%string]
         /\ exit_status run = 0).
Proof.
  intros run Hc. subst run. split.
  - intros Hcmd Hl. rewrite (main_connected _ _ _ Hcmd Hc).
    unfold dispatch, list_datasets. cbn [session client project_id].
    rewrite Hl. unfold trace at 1. cbn [fst]. rewrite stdout_of_app.
    split; reflexivity.
  - intros dataset_id Hcmd Hl. rewrite (main_connected _ _ _ Hcmd Hc).
    unfold dispatch, list_tables. cbn [session client project_id].
    rewrite Hl. unfold trace at 1. cbn [fst]. rewrite stdout_of_app.
    split; reflexivity.
Qed.

Lemma listing_empty_witness :
  stdout_of (trace (main (imports empty_project) (Some "key.json"%string)
                      list_datasets_args))
  = ["No datasets found in project default-project";
     "No data to display."]%string
  /\ stdout_of (trace (main (imports empty_project) (Some "key.json"%string)
                         list_tables_args))
     = ["No tables found in dataset shop"; "No data to display."]%string
  /\ exit_status (main (imports empty_project) (Some "key.json"%string)
                    list_tables_args) = 0.
Proof.
  destruct (@listing_empty (imports empty_project) (Some "key.json"%string)
              list_datasets_args empty_project eq_refl) as [H1 _].
  destruct (@listing_empty (imports empty_project) (Some "key.json"%string)
              list_tables_args empty_project eq_refl) as [_ H2].
  destruct (H1 eq_refl eq_refl) as [H1' _].
  destruct (H2 "shop"%string eq_refl eq_refl) as [H2' H2''].
  exact (conj H1' (conj H2' H2'')).
Defined.

(** ** The requests of [list_datasets] *)

(** [list_datasets] asks for the listing once and then for the descriptor
    of every dataset listed, once each and in the order of the listing,
    whether or not the fetches before it failed; with a dataset to show it
    prints nothing itself. *)
Theorem list_datasets_requests (bq : BigQueryTool) (datasets : list string) :
  client_list_datasets (client bq) = inr datasets ->
  service_calls (trace (list_datasets bq))
  = ListDatasets :: map GetDataset datasets
  /\ (datasets <> [] -> stdout_of (trace (list_datasets bq)) = []).
Proof.
  intros H. unfold list_datasets. rewrite H. cbn [service bind].
  destruct datasets as [|id ids]; [split; [reflexivity | congruence]|].
  rewrite list_datasets_loop_total.
  unfold trace, try_GoogleCloudError. cbn [fst]. split.
  - rewrite service_calls_app.
    now rewrite (service_calls_services GetDataset (id :: ids)).
  - intros _. rewrite stdout_of_app.
    now rewrite (stdout_of_services GetDataset (id :: ids)).
Qed.

Lemma list_datasets_requests_witness :
  service_calls (trace (list_datasets (tool warehouse)))
  = [ListDatasets; GetDataset "sales"; GetDataset "hr"]%string
  /\ stdout_of (trace (list_datasets (tool warehouse))) = [].
Proof.
  destruct (@list_datasets_requests (tool warehouse) ["sales"; "hr"]%string
              eq_refl) as [H1 H2].
  split; [exact H1 | apply H2; discriminate].
Defined.

(** ** What holds of every event of a computation *)

Section Only.

Variable P : event -> Prop.

Lemma only_bind (A B : Type) (m : M A) (f : A -> M B) :
  only P m -> (forall a, only P (f a)) -> only P (bind m f).
Proof.
  unfold only, trace. destruct m as [t [a|e|n]]; simpl; intros Hm Hf; auto.
  specialize (Hf a). destruct (f a) as [t' o]. simpl in *.
  apply Forall_app. now split.
Qed.

Lemma only_try_GoogleCloudError (A : Type) (m : M A) (h : string -> M A) :
  only P m -> (forall msg, only P (h msg)) ->
  only P (try_GoogleCloudError m h).
Proof.
  unfold only, trace. destruct m as [t [a|[msg|msg]|n]]; simpl;
    intros Hm Hh; auto.
  specialize (Hh msg). destruct (h msg) as [t' o]. simpl in *.
  apply Forall_app. now split.
Qed.

Lemma only_try_Exception (A : Type) (m h : M A) :
  only P m -> only P h -> only P (try_Exception m h).
Proof.
  unfold only, trace. destruct m as [t [a|e|n]]; simpl; intros Hm Hh; auto.
  destruct h as [t' o]. simpl in *. apply Forall_app. now split.
Qed.

Lemma only_service (A : Type) (c : call) (r : exn + A) :
  P (Service c) -> only P (service c r).
Proof. intros H. repeat constructor. exact H. Qed.

Lemma only_print (line : string) : P (Stdout line) -> only P (print line).
Proof. intros H. repeat constructor. exact H. Qed.

Lemma only_nothing (A : Type) (o : outcome A) : only P ([], o).
Proof. constructor. Qed.

End Only.

Lemma only_weaken (P Q : event -> Prop) (A : Type) (m : M A) :
  (forall e, P e -> Q e) -> only P m -> only Q m.
Proof. intros H. apply Forall_impl. exact H. Qed.

Ltac only_steps :=
  repeat first
    [ apply only_try_GoogleCloudError; intros
    | apply only_try_Exception
    | apply only_bind; intros
    | apply only_service; exact I
    | apply only_print; exact I
    | apply only_nothing ].

(** *** The handlers of the catalogue send no query *)

Lemma list_datasets_loop_no_query (c : Client) :
  forall datasets result, only no_query (list_datasets_loop c datasets result).
Proof.
  induction datasets as [|id ids IH]; intros acc; cbn [list_datasets_loop];
    only_steps. apply IH.
Qed.

Lemma list_tables_loop_no_query (c : Client) (dataset_id : string) :
  forall tables result,
    only no_query (list_tables_loop c dataset_id tables result).
Proof.
  induction tables as [|t ts IH]; intros acc; cbn [list_tables_loop];
    only_steps. apply IH.
Qed.

Lemma list_datasets_no_query (bq : BigQueryTool) :
  only no_query (list_datasets bq).
Proof.
  unfold list_datasets. only_steps.
  destruct a; [only_steps | apply list_datasets_loop_no_query].
Qed.

Lemma list_tables_no_query (bq : BigQueryTool) (dataset_id : string) :
  only no_query (list_tables bq dataset_id).
Proof.
  unfold list_tables. only_steps.
  destruct a; [only_steps | apply list_tables_loop_no_query].
Qed.

Lemma get_schema_no_query (bq : BigQueryTool) (dataset_id table_id : string) :
  only no_query (get_schema bq dataset_id table_id).
Proof. unfold get_schema. only_steps. Qed.

(** *** [run_query] sends its own query, when the filter accepts it *)

Lemma fill_row_trace (row : list pyval) :
  forall field_names i row_dict,
    trace (fill_row field_names i row row_dict) = [].
Proof.
  induction field_names as [|f fs IH]; intros i d; simpl; [reflexivity|].
  destruct (nth_error row i); [apply IH | reflexivity].
Qed.

Lemma fill_row_only (P : event -> Prop) (row : list pyval)
  (field_names : list string) (i : nat) (row_dict : dict) :
  only P (fill_row field_names i row row_dict).
Proof. unfold only. rewrite fill_row_trace. constructor. Qed.

Lemma query_loop_only (P : event -> Prop) (field_names : list string) :
  P (Service NextRow) ->
  forall results result_list row_count,
    only P (query_loop field_names results result_list row_count).
Proof.
  intros HP. induction results as [|row rest IH|e]; intros acc cnt;
    cbn [query_loop]; try (apply only_service; exact HP).
  apply only_bind; [apply only_service; exact HP | intros _].
  apply only_bind; [apply fill_row_only | intros d].
  destruct (5 <=? cnt + 1)%nat; [apply only_nothing | apply IH].
Qed.

Lemma run_query_only (P : event -> Prop) (bq : BigQueryTool)
  (query : string) (dry_run : bool) :
  (forall c, (forall q d, c <> Query q d) -> P (Service c)) ->
  (is_readonly_query query = true -> P (Service (Query query dry_run))) ->
  only P (run_query bq query dry_run).
Proof.
  intros Hother Hquery. unfold run_query.
  destruct (is_readonly_query query); [|apply only_nothing]. cbn [negb].
  apply only_try_GoogleCloudError; [|intros; apply only_nothing].
  apply only_bind; [apply only_service; now apply Hquery | intros job].
  destruct dry_run; [apply only_nothing|].
  apply only_bind; [apply only_service; apply Hother; discriminate|].
  intros results. apply only_bind; [|intros; apply only_nothing].
  apply query_loop_only. apply Hother. discriminate.
Qed.

(** The tool sends no query but the one of the command line, and that one
    only when the safety filter accepts it: whatever the arguments, the
    environment and the answers of the service, every query that reaches the
    service in a run of [main] is the query of a run-query command, with its
    dry-run flag, and is read-only for the filter. *)
Theorem main_sends_only_accepted_queries (lib : Imports)
  (credentials : option string) (args : Namespace) (query : string)
  (dry_run : bool) :
  In (Service (Query query dry_run)) (trace (main lib credentials args)) ->
  command args = Some (CmdRunQuery query dry_run)
  /\ is_readonly_query query = true.
Proof.
  set (Q := query_event
              (fun q d => command args = Some (CmdRunQuery q d)
                          /\ is_readonly_query q = true)).
  assert (Hweak : forall e, no_query e -> Q e)
    by (intros [l|l|[]]; simpl; tauto).
  assert (H : only Q (main lib credentials args)).
  { unfold main. destruct (command args) as [cmd|] eqn:Hcmd.
    - apply only_bind.
      + destruct credentials; repeat constructor.
      + intros _. apply only_bind.
        * unfold BigQueryTool_init.
          apply only_try_GoogleCloudError; intros;
            repeat (apply only_bind; intros); repeat constructor.
        * intros bq. destruct cmd as [|ds|ds t|q d]; cbn [dispatch];
            (apply only_bind; [|intros; repeat constructor]).
          -- eapply only_weaken; [exact Hweak|].
             apply list_datasets_no_query.
          -- eapply only_weaken; [exact Hweak|].
             apply list_tables_no_query.
          -- eapply only_weaken; [exact Hweak|].
             apply get_schema_no_query.
          -- apply run_query_only.
             ++ intros c Hc. destruct c; try exact I.
                exfalso. eapply Hc. reflexivity.
             ++ intros Hro. simpl. auto.
    - repeat constructor. }
  intros Hin. exact (proj1 (Forall_forall _ _) H _ Hin).
Qed.

Lemma main_sends_only_accepted_queries_witness :
  In (Service (Query "SELECT id, label FROM t" true))
    (trace (main (imports warehouse) None
              (run_query_args "SELECT id, label FROM t" true)))
  /\ is_readonly_query "SELECT id, label FROM t" = true.
Proof.
  assert (H : In (Service (Query "SELECT id, label FROM t" true))
                (trace (main (imports warehouse) None
                          (run_query_args "SELECT id, label FROM t" true))))
    by (cbn; tauto).
  split; [exact H|].
  exact (proj2 (main_sends_only_accepted_queries _ _ _ _ _ H)).
Defined.

(** ** [run_query] under any behaviour of the service *)

Lemma no_exit_bind (A B : Type) (m : M A) (f : A -> M B) :
  no_exit m -> (forall a, no_exit (f a)) -> no_exit (bind m f).
Proof.
  unfold no_exit, final. destruct m as [t [a|e|n]]; simpl; intros Hm Hf k.
  - specialize (Hf a k). now destruct (f a).
  - discriminate.
  - now destruct (Hm n).
Qed.

Lemma no_exit_try_GoogleCloudError (A : Type) (m : M A) (h : string -> M A) :
  no_exit m -> (forall msg, no_exit (h msg)) ->
  no_exit (try_GoogleCloudError m h).
Proof.
  unfold no_exit, final. destruct m as [t [a|[msg|msg]|n]]; simpl;
    intros Hm Hh k; try discriminate; try exact (Hm k).
  specialize (Hh msg k). now destruct (h msg).
Qed.

Lemma no_exit_service (A : Type) (c : call) (r : exn + A) :
  no_exit (service c r).
Proof. intros n. unfold final. now destruct r. Qed.

Lemma fill_row_no_exit (row : list pyval) :
  forall field_names i row_dict,
    no_exit (fill_row field_names i row row_dict).
Proof.
  induction field_names as [|f fs IH]; intros i d; simpl; [discriminate|].
  destruct (nth_error row i); [apply IH | discriminate].
Qed.

Lemma query_loop_no_exit (field_names : list string) :
  forall results result_list row_count,
    no_exit (query_loop field_names results result_list row_count).
Proof.
  induction results as [|row rest IH|e]; intros acc cnt; cbn [query_loop];
    try apply no_exit_service.
  apply no_exit_bind; [apply no_exit_service | intros _].
  apply no_exit_bind; [apply fill_row_no_exit | intros d].
  destruct (5 <=? cnt + 1)%nat; [discriminate | apply IH].
Qed.

Lemma try_GoogleCloudError_caught (A : Type) (m : M A) (f : string -> A)
  (msg : string) :
  final (try_GoogleCloudError m (fun e => ret (f e)))
  <> Raise (GoogleCloudError msg).
Proof. destruct m as [t [a|[e|e]|n]]; discriminate. Qed.

Lemma silent_no_output (t : list event) :
  Forall silent_event t -> stdout_of t = [] /\ stderr_of t = [].
Proof.
  induction 1 as [|e t He _ [IH1 IH2]]; [split; reflexivity|].
  destruct e as [l|l|c]; simpl in *; try contradiction. now split.
Qed.

(** [run_query] degrades gracefully: whatever the query, the flag and the
    answers of the service, it prints nothing, it never ends the process and
    no service error escapes it. *)
Theorem run_query_graceful (bq : BigQueryTool) (query : string)
  (dry_run : bool) :
  stdout_of (trace (run_query bq query dry_run)) = []
  /\ stderr_of (trace (run_query bq query dry_run)) = []
  /\ (forall n, final (run_query bq query dry_run) <> Exit n)
  /\ (forall msg,
         final (run_query bq query dry_run) <> Raise (GoogleCloudError msg)).
Proof.
  assert (Hs : only silent_event (run_query bq query dry_run))
    by (apply run_query_only; intros; exact I).
  destruct (silent_no_output Hs) as [H1 H2].
  split; [exact H1|]. split; [exact H2|]. split.
  - change (no_exit (run_query bq query dry_run)). unfold run_query.
    destruct (negb (is_readonly_query query)); [discriminate|].
    apply no_exit_try_GoogleCloudError; [|discriminate].
    apply no_exit_bind; [apply no_exit_service | intros job].
    destruct dry_run; [discriminate|].
    apply no_exit_bind; [apply no_exit_service | intros results].
    apply no_exit_bind; [apply query_loop_no_exit | discriminate].
  - intros msg. unfold run_query.
    destruct (negb (is_readonly_query query)); [discriminate|].
    apply try_GoogleCloudError_caught.
Qed.

(** *** Service errors *)

Lemma query_loop_fails (field_names : list string) (e : exn) :
  forall rs result_list row_count,
    row_count + List.length rs < 5 ->
    Forall (fun r => List.length field_names <= List.length r) rs ->
    query_loop field_names (rows_app rs (RowsFail e)) result_list row_count
    = (repeat (Service NextRow) (S (List.length rs)), Raise e).
Proof.
  induction rs as [|r rs IH]; intros acc cnt Hlt Hwf; [reflexivity|].
  inversion Hwf as [|? ? Hr Hwf']; subst. simpl in Hlt.
  cbn [rows_app query_loop]. rewrite (fill_row_row_dict _ _ Hr).
  unfold ret, service. cbn [bind app].
  destruct (5 <=? cnt + 1)%nat eqn:E; [apply Nat.leb_le in E; lia|].
  rewrite IH by (try lia; assumption). reflexivity.
Qed.

(** A service error met by an accepted query becomes the outcome
    "Error executing query: ..." wherever it is met: when the query is sent,
    when its result is asked for, or while rows are read, in which case the
    rows read before it are not returned. *)
Theorem run_query_service_error (bq : BigQueryTool) (query : string)
  (msg : string) :
  is_readonly_query query = true ->
  (forall dry_run,
      client_query (client bq) query dry_run = inl (GoogleCloudError msg) ->
      run_query bq query dry_run
      = ([Service (Query query dry_run)],
         Ret (Message ("Error executing query: " ++ msg)%string)))
  /\ (forall job,
         client_query (client bq) query false = inr job ->
         result job 5 = inl (GoogleCloudError msg) ->
         run_query bq query false
         = ([Service (Query query false); Service (Result 5)],
            Ret (Message ("Error executing query: " ++ msg)%string)))
  /\ (forall job results rs,
         client_query (client bq) query false = inr job ->
         result job 5 = inr results ->
         iterator_rows results = rows_app rs (RowsFail (GoogleCloudError msg)) ->
         List.length rs < 5 ->
         Forall (fun r => List.length (iterator_schema results)
                          <= List.length r) rs ->
         final (run_query bq query false)
         = Ret (Message ("Error executing query: " ++ msg)%string)).
Proof.
  intros Hro. unfold run_query. rewrite Hro. cbn [negb].
  split; [|split].
  - intros dry_run ->. reflexivity.
  - intros job -> Hres. cbn [service bind]. rewrite Hres. reflexivity.
  - intros job results rs -> Hres Hrows Hlen Hwf.
    cbn [service bind]. rewrite Hres. cbn [service bind]. rewrite Hrows.
    rewrite query_loop_fails; [reflexivity | simpl; lia |].
    now rewrite length_map.
Qed.

Lemma run_query_service_error_witness :
  run_query (tool locked) "SELECT 1" false
  = ([Service (Query "SELECT 1" false)],
     Ret (Message "Error executing query: 403 Forbidden"))%string
  /\ final (run_query (tool flaky) "SELECT 1" false)
     = Ret (Message "Error executing query: 503 Backend error").
Proof.
  split.
  - exact (proj1 (@run_query_service_error (tool locked) "SELECT 1"
                    "403 Forbidden" eq_refl) false eq_refl).
  - refine (proj2 (proj2 (@run_query_service_error (tool flaky) "SELECT 1"
                            "503 Backend error" eq_refl))
              broken_job broken_cursor (firstn 2 six_rows)
              eq_refl eq_refl eq_refl _ _).
    + simpl. lia.
    + repeat constructor.
Defined.

(** *** The cap, whatever the cursor does *)

Lemma rows_pulled_app (t t' : list event) :
  rows_pulled (t ++ t') = rows_pulled t + rows_pulled t'.
Proof. unfold rows_pulled. now rewrite filter_app, length_app. Qed.

Lemma fill_row_keys (row : list pyval) :
  forall field_names i row_dict t d,
    fill_row field_names i row row_dict = (t, Ret d) ->
    dict_keys d
    = fold_left (fun ks k => add_key k ks) field_names (dict_keys row_dict).
Proof.
  induction field_names as [|f fs IH]; intros i d0 t d H; simpl in *.
  - now injection H as _ <-.
  - destruct (nth_error row i) as [v|]; [|discriminate].
    apply IH in H. now rewrite H, dict_keys_dict_set.
Qed.

Lemma query_loop_bounds (field_names : list string) :
  forall results result_list row_count k,
    row_count + k = 5 -> 0 < k ->
    rows_pulled
      (trace (query_loop field_names results result_list row_count)) <= k
    /\ forall l,
         final (query_loop field_names results result_list row_count) = Ret l ->
         exists new,
           l = result_list ++ new /\ List.length new <= k
           /\ Forall (fun d => dict_keys d = first_occurrences field_names) new.
Proof.
  induction results as [|row rest IH|e]; intros acc cnt k Hk Hpos;
    cbn [query_loop].
  - split; [cbn; lia|]. intros l H. injection H as <-.
    exists []. rewrite app_nil_r. repeat split; [simpl; lia | constructor].
  - pose proof (fill_row_trace row field_names 0 []) as Ht.
    destruct (fill_row field_names 0 row []) as [tf o] eqn:Ef.
    cbn [trace fst] in Ht. subst tf.
    destruct o as [d|e|n]; unfold service; cbn [bind app].
    + pose proof (fill_row_keys _ _ _ _ Ef) as Hkeys.
      destruct (5 <=? cnt + 1)%nat eqn:E.
      * split; [cbn; lia|]. intros l H. injection H as <-.
        exists [d]. repeat split; [simpl; lia | repeat constructor; exact Hkeys].
      * apply Nat.leb_gt in E.
        destruct (IH (acc ++ [d]) (cnt + 1) (k - 1)) as [Hp Hl]; try lia.
        destruct (query_loop field_names rest (acc ++ [d]) (cnt + 1))
          as [t' o'].
        cbn [trace final fst snd] in *. split.
        -- change (Service NextRow :: t') with ([Service NextRow] ++ t').
           rewrite rows_pulled_app. cbn. lia.
        -- intros l H. destruct (Hl l H) as (new & -> & Hlen & Hall).
           exists (d :: new). rewrite <- app_assoc.
           repeat split; [simpl; lia | constructor; assumption].
    + split; [cbn; lia | discriminate].
    + split; [cbn; lia | discriminate].
  - split; [cbn; lia | discriminate].
Qed.

(** The cap of five holds whatever the service does: [run_query] never asks
    the cursor for more than five rows, and a list of rows it returns is
    that of an accepted, executed query, has at most five rows, and all its
    rows have the same columns, those of the schema in its order. *)
Theorem run_query_cap (bq : BigQueryTool) (query : string) (dry_run : bool) :
  rows_pulled (trace (run_query bq query dry_run)) <= 5
  /\ forall l,
       final (run_query bq query dry_run) = Ret (Rows l) ->
       List.length l <= 5
       /\ dry_run = false
       /\ is_readonly_query query = true
       /\ exists job results,
            client_query (client bq) query false = inr job
            /\ result job 5 = inr results
            /\ Forall (fun row =>
                         dict_keys row
                         = first_occurrences
                             (map name (iterator_schema results))) l.
Proof.
  unfold run_query. destruct (is_readonly_query query); cbn [negb];
    [|split; [cbn; lia | discriminate]].
  destruct dry_run.
  - destruct (client_query (client bq) query true) as [[msg|msg]|job];
      (split; [cbn; lia | discriminate]).
  - destruct (client_query (client bq) query false) as [[msg|msg]|job];
      try (split; [cbn; lia | discriminate]).
    cbn [service bind].
    destruct (result job 5) as [[msg|msg]|results] eqn:Hres;
      try (split; [cbn; lia | discriminate]).
    cbn [service bind].
    destruct (@query_loop_bounds (map name (iterator_schema results))
                (iterator_rows results) [] 0 5 eq_refl ltac:(lia))
      as [Hp Hl].
    destruct (query_loop (map name (iterator_schema results))
                (iterator_rows results) [] 0) as [t [l|[msg|msg]|n]];
      cbn [trace final fst snd] in *; cbn;
      try (split; [rewrite ?app_nil_r; exact Hp | discriminate]).
    split.
    + rewrite app_nil_r. exact Hp.
    + intros l' H. injection H as <-.
      destruct (Hl l eq_refl) as (new & -> & Hlen & Hall).
      split; [exact Hlen|]. split; [reflexivity|]. split; [reflexivity|].
      exists job, results. split; [reflexivity|]. split; assumption.
Qed.

(** ** What a run-query run prints *)

(** With the session open, a run-query run prints one line after the
    bootstrap, the formatted outcome of [run_query], and exits with status
    0; when an exception other than a service error stops [run_query],
    nothing is printed for the command and the status is 1. *)
Theorem main_run_query_output (lib : Imports) (credentials : option string)
  (args : Namespace) (query : string) (dry_run : bool) (c : Client) :
  let run := main lib credentials args in
  let bq := session (arg_project args) c in
  command args = Some (CmdRunQuery query dry_run) ->
  bigquery_Client lib (arg_project args) = inr c ->
  (forall outcome,
      final (run_query bq query dry_run) = Ret outcome ->
      stdout_of (trace run)
      = stdout_of (trace (credentials_check credentials))
        ++ [format_output lib outcome "table"]
      /\ exit_status run = 0)
  /\ (forall e,
         final (run_query bq query dry_run) = Raise e ->
         stdout_of (trace run)
         = stdout_of (trace (credentials_check credentials))
         /\ exit_status run = 1).
Proof.
  intros run bq Hcmd Hc. subst run.
  rewrite (main_connected _ _ _ Hcmd Hc). fold bq. cbn [dispatch].
  assert (Hs : only silent_event (run_query bq query dry_run))
    by (apply run_query_only; intros; exact I).
  destruct (silent_no_output Hs) as [Hout _].
  destruct (run_query bq query dry_run) as [t o].
  cbn [trace final fst snd] in *. split.
  - intros outcome ->. cbn [bind print]. unfold exit_status.
    cbn [trace final fst snd]. split; [|reflexivity].
    rewrite !stdout_of_app, Hout. reflexivity.
  - intros e ->. cbn [bind]. unfold exit_status.
    cbn [trace final fst snd]. split; [|reflexivity].
    rewrite !stdout_of_app, Hout. cbn. now rewrite app_nil_r.
Qed.

Lemma main_run_query_output_witness :
  stdout_of (trace (main (imports warehouse) (Some "key.json"%string)
                      (run_query_args "SELECT id, label FROM t" true)))
  = ["Query validation successful. Estimated bytes processed: 2048 bytes."
    ]%string.
Proof.
  exact (proj1 (proj1 (@main_run_query_output (imports warehouse)
                         (Some "key.json"%string)
                         (run_query_args "SELECT id, label FROM t" true)
                         "SELECT id, label FROM t" true warehouse
                         eq_refl eq_refl) _ eq_refl)).
Defined.

(** * Further properties of the safety filter *)

(** ** The case of the letters does not matter *)

Lemma lower_idempotent (c : ascii) : lower (lower c) = lower c.
Proof.
  revert c. apply ascii_cases.
  intros [] [] [] [] [] [] [] []; vm_compute; reflexivity.
Qed.

Lemma is_newline_lower (c : ascii) : is_newline (lower c) = is_newline c.
Proof.
  revert c. apply ascii_cases.
  intros [] [] [] [] [] [] [] []; vm_compute; reflexivity.
Qed.

Lemma word_opt_lower (prev : option ascii) :
  word_opt (option_map lower prev) = word_opt prev.
Proof. destruct prev; simpl; [apply is_word_lower | reflexivity]. Qed.

Lemma at_boundary_lower (prev : option ascii) (s : list ascii) :
  at_boundary (option_map lower prev) (map lower s) = at_boundary prev s.
Proof.
  unfold at_boundary. rewrite word_opt_lower. f_equal.
  destruct s; simpl; [reflexivity | apply is_word_lower].
Qed.

Lemma match_lit_lower (w : list ascii) :
  forall s prev,
    match_lit w (map lower s) (option_map lower prev)
    = option_map (fun pr => (option_map lower (fst pr), map lower (snd pr)))
        (match_lit w s prev).
Proof.
  induction w as [|a w IH]; intros s prev; simpl; [reflexivity|].
  destruct s as [|c s]; simpl; [reflexivity|].
  unfold ci_char. rewrite lower_idempotent.
  destruct (Ascii.eqb (lower c) (lower a)); [|reflexivity].
  exact (IH s (Some c)).
Qed.

Lemma dot_star_lower (k k' : option ascii -> list ascii -> bool) :
  (forall prev s, k' (option_map lower prev) (map lower s) = k prev s) ->
  forall s prev,
    dot_star k' (option_map lower prev) (map lower s) = dot_star k prev s.
Proof.
  intros Hk. induction s as [|c s IH]; intros prev; simpl.
  - exact (Hk prev []).
  - pose proof (Hk prev (c :: s)) as H1. pose proof (IH (Some c)) as H2.
    simpl in H1, H2. now rewrite is_newline_lower, H1, H2.
Qed.

Lemma match_here_lower (p : pattern) :
  forall prev s,
    match_here p (option_map lower prev) (map lower s) = match_here p prev s.
Proof.
  induction p as [|a p IH]; intros prev s; simpl; [reflexivity|].
  destruct a as [|ws|].
  - now rewrite at_boundary_lower, IH.
  - induction ws as [|w ws IHws]; simpl; [reflexivity|].
    rewrite IHws, match_lit_lower. f_equal.
    destruct (match_lit (list_ascii_of_string w) s prev) as [[prev' rest]|];
      simpl; [apply IH | reflexivity].
  - apply dot_star_lower. exact IH.
Qed.

Lemma search_from_lower (p : pattern) :
  forall s prev,
    search_from p (option_map lower prev) (map lower s)
    = search_from p prev s.
Proof.
  induction s as [|c s IH]; intros prev; simpl.
  - pose proof (match_here_lower p prev []) as H. simpl in H.
    now rewrite H.
  - pose proof (match_here_lower p prev (c :: s)) as H1.
    pose proof (IH (Some c)) as H2. simpl in H1, H2. now rewrite H1, H2.
Qed.

Lemma search_lower_all (p : pattern) (query : string) :
  search p (lower_all query) = search p query.
Proof.
  unfold search, lower_all. rewrite list_ascii_of_string_of_list_ascii.
  exact (search_from_lower p (list_ascii_of_string query) None).
Qed.

(** On a query of code points below 256, the filter does not see the case
    of the letters: the query and the same query in lower case get the same
    answer. (Beyond these code points the law fails: U+0130 matches the
    letter I for [re.IGNORECASE], its lower case does not.) *)
Theorem is_readonly_query_case (query : string) :
  is_readonly_query (lower_all query) = is_readonly_query query.
Proof.
  unfold is_readonly_query, NON_READONLY_PATTERNS, readonly_loop.
  now rewrite !search_lower_all.
Qed.

(** ** Queries made of parts *)

Lemma is_readonly_query_false_iff (query : string) :
  is_readonly_query query = false <-> denylisted query.
Proof.
  assert (Hg : wordy "GRANT")
    by (apply wordy_literal; [discriminate | reflexivity]).
  assert (Ht : wordy "TO")
    by (apply wordy_literal; [discriminate | reflexivity]).
  assert (Hr : wordy "REVOKE")
    by (apply wordy_literal; [discriminate | reflexivity]).
  assert (Hf : wordy "FROM")
    by (apply wordy_literal; [discriminate | reflexivity]).
  pose proof (search_keywords query MUTATING_KEYWORDS_wordy) as H1.
  pose proof (search_span query Hg Ht) as H2.
  pose proof (search_span query Hr Hf) as H3.
  unfold denylisted, mutating_keyword, is_readonly_query,
    NON_READONLY_PATTERNS, readonly_loop.
  destruct (search [WordB; Lits MUTATING_KEYWORDS; WordB] query);
    destruct (search (span_pattern "GRANT" "TO") query);
    destruct (search (span_pattern "REVOKE" "FROM") query);
    intuition congruence.
Qed.

Lemma list_ascii_of_string_app (a b : string) :
  list_ascii_of_string (a ++ b)%string
  = list_ascii_of_string a ++ list_ascii_of_string b.
Proof. induction a as [|c a IH]; simpl; [reflexivity | now rewrite IH]. Qed.

Lemma edge_after_extend (post rest : list ascii) (sep : ascii) :
  is_word sep = false -> edge_after post -> edge_after (post ++ sep :: rest).
Proof. unfold edge_after. destruct post; simpl; auto. Qed.

Lemma edge_after_restrict (post rest : list ascii) (sep : ascii) :
  edge_after (post ++ sep :: rest) -> edge_after post.
Proof. unfold edge_after. destruct post; simpl; auto. Qed.

Lemma edge_before_extend (la pre : list ascii) (sep : ascii) :
  is_word sep = false -> edge_before pre -> edge_before (la ++ sep :: pre).
Proof.
  unfold edge_before. rewrite last_of_app. destruct pre; simpl; auto.
Qed.

Lemma edge_before_restrict (la pre : list ascii) (sep : ascii) :
  edge_before (la ++ sep :: pre) -> edge_before pre.
Proof.
  unfold edge_before. rewrite last_of_app. destruct pre; simpl; auto.
Qed.

Lemma edge_after_nonempty (x y y' : list ascii) :
  x <> [] -> edge_after (x ++ y) -> edge_after (x ++ y').
Proof. unfold edge_after. destruct x; [contradiction | simpl; auto]. Qed.

Lemma edge_before_nonempty (pre pre' x : list ascii) :
  x <> [] -> edge_before (pre ++ x) -> edge_before (pre' ++ x).
Proof.
  unfold edge_before. rewrite !last_of_app.
  destruct x; [contradiction | simpl; auto].
Qed.

Lemma ci_equal_nonempty (w : list ascii) (k : string) :
  wordy k -> ci_equal w (list_ascii_of_string k) -> w <> [].
Proof.
  intros [Hne _] Hw ->. inversion Hw. congruence.
Qed.

Lemma ci_equal_no_separator (w : list ascii) (k : string) (sep : ascii) :
  wordy k -> ci_equal w (list_ascii_of_string k) -> is_word sep = false ->
  ~ In sep w.
Proof.
  intros [_ Hk] Hw Hsep. revert Hk.
  induction Hw as [|c a w k' Hca _ IH]; intros Hk [].
  - subst c. inversion Hk as [|? ? Ha _]; subst.
    rewrite (lower_is_word _ _ Hca) in Hsep. congruence.
  - inversion Hk; subst. now apply IH.
Qed.

Lemma whole_word_part (k : string) (la lb : list ascii) (sep : ascii) :
  is_word sep = false ->
  whole_word k la \/ whole_word k lb -> whole_word k (la ++ sep :: lb).
Proof.
  intros Hsep [H | H]; destruct H as (pre & w & post & -> & Hw & Hb & Ha).
  - exists pre, w, (post ++ sep :: lb). rewrite <- !app_assoc.
    repeat split; auto. now apply edge_after_extend.
  - exists (la ++ sep :: pre), w, post. rewrite <- app_assoc.
    repeat split; auto. now apply edge_before_extend.
Qed.

Lemma span_part (first last : string) (la lb : list ascii) (sep : ascii) :
  wordy first -> wordy last -> is_word sep = false ->
  span first last la \/ span first last lb ->
  span first last (la ++ sep :: lb).
Proof.
  intros Hf Hl Hsep [H | H];
    destruct H as (pre & w1 & mid & w2 & post & -> & Hw1 & Hw2 & Hmid
                   & E1 & E2 & E3 & E4);
    pose proof (ci_equal_nonempty Hf Hw1) as N1;
    pose proof (ci_equal_nonempty Hl Hw2) as N2.
  - exists pre, w1, mid, w2, (post ++ sep :: lb). rewrite <- !app_assoc.
    split; [reflexivity|]. repeat (split; [assumption|]). split; [|split].
    + rewrite !app_assoc in E2 |- *. rewrite <- !app_assoc in E2 |- *.
      rewrite (app_assoc mid w2) in E2 |- *.
      eapply edge_after_nonempty; [|exact E2].
      intros Hnil. apply app_eq_nil in Hnil as [_ Hnil]. auto.
    + exact E3.
    + now apply edge_after_extend.
  - exists (la ++ sep :: pre), w1, mid, w2, post. rewrite <- app_assoc.
    split; [reflexivity|]. repeat (split; [assumption|]).
    split; [now apply edge_before_extend|]. split; [exact E2|].
    split; [|exact E4].
    assert (N : w1 ++ mid <> [])
      by (intros Hnil; apply app_eq_nil in Hnil as [Hnil _]; auto).
    eapply edge_before_nonempty; [exact N | exact E3].
Qed.

Lemma segment_side (A : Type) (sep : A) (post lb : list A) :
  forall la pre seg,
    pre ++ seg ++ post = la ++ sep :: lb -> ~ In sep seg ->
    (exists post', la = pre ++ seg ++ post' /\ post = post' ++ sep :: lb)
    \/ (exists pre', pre = la ++ sep :: pre' /\ lb = pre' ++ seg ++ post).
Proof.
  induction la as [|a la IH]; intros pre seg H Hnot.
  - destruct pre as [|c pre]; simpl in H.
    + destruct seg as [|c seg]; simpl in H.
      * left. exists []. auto.
      * injection H as -> _. exfalso. apply Hnot. now left.
    + injection H as -> H. right. exists pre. auto.
  - destruct pre as [|c pre]; simpl in H.
    + destruct seg as [|c seg]; simpl in H.
      * left. exists (a :: la). auto.
      * injection H as -> H.
        destruct (IH [] seg H) as [(post' & -> & ->) | (pre' & Hp & _)].
        -- intros Hin. apply Hnot. now right.
        -- left. exists post'. auto.
        -- exfalso. now apply app_cons_not_nil in Hp.
    + injection H as -> H.
      destruct (IH pre seg H Hnot) as [(post' & -> & ->) | (pre' & -> & ->)].
      * left. exists post'. auto.
      * right. exists pre'. auto.
Qed.

Lemma is_word_line_feed : is_word line_feed = false.
Proof. reflexivity. Qed.

Lemma same_line_no_line_feed (mid : list ascii) :
  same_line mid -> ~ In line_feed mid.
Proof.
  intros H Hin. apply (proj1 (Forall_forall _ _) H) in Hin. discriminate Hin.
Qed.

Lemma whole_word_line (k : string) (la lb : list ascii) :
  wordy k ->
  whole_word k (la ++ line_feed :: lb) -> whole_word k la \/ whole_word k lb.
Proof.
  intros Hk (pre & w & post & Heq & Hw & Hb & Ha). symmetry in Heq.
  destruct (@segment_side _ _ _ _ _ _ _ Heq
              (@ci_equal_no_separator _ _ _ Hk Hw is_word_line_feed))
    as [(post' & -> & ->) | (pre' & -> & ->)].
  - left. exists pre, w, post'. repeat split; auto.
    eapply edge_after_restrict; eassumption.
  - right. exists pre', w, post. repeat split; auto.
    eapply edge_before_restrict; eassumption.
Qed.

Lemma span_line (first last : string) (la lb : list ascii) :
  wordy first -> wordy last ->
  span first last (la ++ line_feed :: lb) ->
  span first last la \/ span first last lb.
Proof.
  intros Hf Hl (pre & w1 & mid & w2 & post & Heq & Hw1 & Hw2 & Hmid
                & E1 & E2 & E3 & E4).
  pose proof (ci_equal_nonempty Hf Hw1) as N1.
  pose proof (ci_equal_nonempty Hl Hw2) as N2.
  assert (N12 : mid ++ w2 <> [])
    by (intros Hnil; apply app_eq_nil in Hnil as [_ Hnil]; auto).
  assert (N11 : w1 ++ mid <> [])
    by (intros Hnil; apply app_eq_nil in Hnil as [Hnil _]; auto).
  assert (Hnot : ~ In line_feed (w1 ++ mid ++ w2)).
  { intros Hin. apply in_app_or in Hin as [Hin | Hin].
    - exact (@ci_equal_no_separator _ _ _ Hf Hw1 is_word_line_feed Hin).
    - apply in_app_or in Hin as [Hin | Hin].
      + exact (same_line_no_line_feed Hmid Hin).
      + exact (@ci_equal_no_separator _ _ _ Hl Hw2 is_word_line_feed Hin). }
  assert (Heq' : pre ++ (w1 ++ mid ++ w2) ++ post = la ++ line_feed :: lb)
    by (rewrite Heq, <- !app_assoc; reflexivity).
  destruct (@segment_side _ _ _ _ _ _ _ Heq' Hnot)
    as [(post' & -> & ->) | (pre' & -> & ->)].
  - left. exists pre, w1, mid, w2, post'. rewrite <- !app_assoc.
    split; [reflexivity|]. repeat (split; [assumption|]).
    split; [|split; [exact E3|]].
    + rewrite (app_assoc mid w2) in E2 |- *.
      eapply edge_after_nonempty; [exact N12 | exact E2].
    + eapply edge_after_restrict; eassumption.
  - right. exists pre', w1, mid, w2, post. rewrite <- !app_assoc.
    split; [reflexivity|]. repeat (split; [assumption|]).
    split; [eapply edge_before_restrict; eassumption|].
    split; [exact E2|]. split; [|exact E4].
    eapply edge_before_nonempty; [exact N11 | exact E3].
Qed.

Lemma wordy_span_words :
  wordy "GRANT" /\ wordy "TO" /\ wordy "REVOKE" /\ wordy "FROM".
Proof.
  repeat split; try discriminate;
    apply Forall_forall; apply forallb_forall; reflexivity.
Qed.

Lemma denylisted_part (a b : string) (sep : ascii) :
  is_word sep = false ->
  denylisted a \/ denylisted b -> denylisted (a ++ String sep b).
Proof.
  destruct wordy_span_words as (Hg & Ht & Hr & Hf).
  intros Hsep H. unfold denylisted in *. cbv zeta in *.
  rewrite list_ascii_of_string_app. simpl.
  destruct H as [[(k & Hin & H) | [H | H]] | [(k & Hin & H) | [H | H]]].
  - left. exists k. split; [exact Hin|]. apply whole_word_part; auto.
  - right. left. apply span_part; auto.
  - right. right. apply span_part; auto.
  - left. exists k. split; [exact Hin|]. apply whole_word_part; auto.
  - right. left. apply span_part; auto.
  - right. right. apply span_part; auto.
Qed.

Lemma denylisted_line (a b : string) :
  denylisted (a ++ String line_feed b) -> denylisted a \/ denylisted b.
Proof.
  destruct wordy_span_words as (Hg & Ht & Hr & Hf).
  unfold denylisted. cbv zeta. rewrite list_ascii_of_string_app. simpl.
  intros [(k & Hin & H) | [H | H]].
  - apply whole_word_line in H.
    + destruct H as [H | H]; [left | right]; left; exists k; auto.
    + exact (proj1 (Forall_forall _ _) MUTATING_KEYWORDS_wordy k Hin).
  - apply span_line in H; auto. destruct H as [H | H]; auto.
  - apply span_line in H; auto. destruct H as [H | H]; auto.
Qed.

(** A query is accepted only if each of its parts is: when two texts are
    joined by a character that is not a word character (a semicolon, a
    space, a line feed), rejection of either text rejects the whole. *)
Theorem is_readonly_query_parts (a b : string) (sep : ascii) :
  is_word sep = false ->
  is_readonly_query (a ++ String sep b) = true ->
  is_readonly_query a = true /\ is_readonly_query b = true.
Proof.
  intros Hsep H.
  assert (Hno : ~ denylisted (a ++ String sep b)).
  { intros Hd. apply is_readonly_query_false_iff in Hd. congruence. }
  split.
  - destruct (is_readonly_query a) eqn:E; [reflexivity|].
    apply is_readonly_query_false_iff in E. exfalso. apply Hno.
    apply denylisted_part; auto.
  - destruct (is_readonly_query b) eqn:E; [reflexivity|].
    apply is_readonly_query_false_iff in E. exfalso. apply Hno.
    apply denylisted_part; auto.
Qed.

Lemma is_readonly_query_parts_witness :
  is_readonly_query ("SELECT 1" ++ String ";" "SELECT 2") = true
  /\ is_readonly_query "SELECT 1" = true
  /\ is_readonly_query "SELECT 2" = true.
Proof.
  assert (H : is_readonly_query ("SELECT 1" ++ String ";" "SELECT 2") = true)
    by reflexivity.
  split; [exact H|].
  exact (@is_readonly_query_parts "SELECT 1" "SELECT 2" ";"%char eq_refl H).
Defined.

(** The filter reads a query line by line: a text of several lines is
    accepted exactly when each of its lines is. In particular a GRANT and
    its TO, or a REVOKE and its FROM, on different lines are not seen. *)
Theorem is_readonly_query_lines (a b : string) :
  is_readonly_query (a ++ String line_feed b)
  = is_readonly_query a && is_readonly_query b.
Proof.
  destruct (is_readonly_query (a ++ String line_feed b)) eqn:E.
  - assert (Hno : ~ denylisted (a ++ String line_feed b)).
    { intros Hd. apply is_readonly_query_false_iff in Hd. congruence. }
    destruct (is_readonly_query a) eqn:Ea, (is_readonly_query b) eqn:Eb;
      try reflexivity; exfalso; apply Hno;
      apply (@denylisted_part a b line_feed eq_refl);
      [right | left | left]; now apply is_readonly_query_false_iff.
  - apply is_readonly_query_false_iff in E. apply denylisted_line in E.
    destruct E as [E | E]; apply is_readonly_query_false_iff in E;
      rewrite E; [reflexivity | symmetry; apply andb_false_r].
Qed.

(** * Fatal errors of the catalogue commands *)

(** When the first request of list-datasets, list-tables or get-schema
    meets a service error, the command prints its error line to the primary
    stream and the process ends there with status 1: no table and no
    "No data to display." follows. *)
Theorem fatal_error_output (lib : Imports) (credentials : option string)
  (args : Namespace) (c : Client) (msg : string) :
  let run := main lib credentials args in
  let before := stdout_of (trace (credentials_check credentials)) in
  bigquery_Client lib (arg_project args) = inr c ->
  (command args = Some CmdListDatasets ->
   client_list_datasets c = inl (GoogleCloudError msg) ->
   stdout_of (trace run)
   = before ++ [("Error listing datasets: " ++ msg)%string]
   /\ final run = Exit 1)
  /\ (forall dataset_id,
         command args = Some (CmdListTables dataset_id) ->
         client_list_tables c dataset_id = inl (GoogleCloudError msg) ->
         stdout_of (trace run)
         = before ++ [("Error listing tables in dataset " ++ dataset_id
                       ++ ": " ++ msg)%string]
         /\ final run = Exit 1)
  /\ (forall dataset_id table_id,
         command args = Some (CmdGetSchema dataset_id table_id) ->
         client_get_table c dataset_id table_id = inl (GoogleCloudError msg) ->
         stdout_of (trace run)
         = before ++ [("Error getting schema for " ++ dataset_id ++ "."
                       ++ table_id ++ ": " ++ msg)%string]
         /\ final run = Exit 1).
Proof.
  intros run before Hc. subst run before. split; [|split].
  - intros Hcmd Hl. rewrite (main_connected _ _ _ Hcmd Hc).
    unfold dispatch, list_datasets. cbn [session client project_id].
    rewrite Hl. unfold trace at 1. cbn [fst]. rewrite stdout_of_app.
    split; reflexivity.
  - intros dataset_id Hcmd Hl. rewrite (main_connected _ _ _ Hcmd Hc).
    unfold dispatch, list_tables. cbn [session client project_id].
    rewrite Hl. unfold trace at 1. cbn [fst]. rewrite stdout_of_app.
    split; reflexivity.
  - intros dataset_id table_id Hcmd Hl.
    rewrite (main_connected _ _ _ Hcmd Hc).
    unfold dispatch, get_schema. cbn [session client project_id].
    rewrite Hl. unfold trace at 1. cbn [fst]. rewrite stdout_of_app.
    split; reflexivity.
Qed.

Lemma fatal_error_output_witness :
  stdout_of (trace (main (imports locked) (Some "key.json"%string)
                      list_tables_args))
  = ["Error listing tables in dataset shop: 403 Forbidden"%string]
  /\ final (main (imports locked) (Some "key.json"%string) list_tables_args)
     = Exit 1.
Proof.
  exact (proj1 (proj2 (@fatal_error_output (imports locked)
                         (Some "key.json"%string) list_tables_args locked
                         "403 Forbidden" eq_refl))
           "shop"%string eq_refl eq_refl).
Defined.

Lemma run_query_cap_witness :
  rows_pulled
    (trace (run_query (tool warehouse) "SELECT id, label FROM t" false)) <= 5
  /\ exists l,
       final (run_query (tool warehouse) "SELECT id, label FROM t" false)
       = Ret (Rows l)
       /\ List.length l <= 5.
Proof.
  destruct (run_query_cap (tool warehouse) "SELECT id, label FROM t" false)
    as [H1 H2].
  split; [exact H1|].
  eexists. split; [reflexivity|]. exact (proj1 (H2 _ eq_refl)).
Defined.
